(** * The card-game engine of [src/game/game.ts], embedded in Rocq

    The [Game] aggregate, its action validator and its business methods are
    translated from the TypeScript source.  Mutation is modelled by explicit
    state passing: every method maps a [Game] to an [Outcome], which records
    whether the call returned or threw, and the state the object is left in
    either way (so that a throw after a mutation is visible). *)

From Stdlib Require Import List String Ascii ZArith Bool Arith Lia Permutation.
Import ListNotations.
Open Scope list_scope.

(** ** Action codes (enum [Action]) *)

Module Action.

Inductive t : Set :=
| CREATE_GAME | START_GAME | PREPARE_ROUND | START_ROUND
| JOIN_AS_PLAYER | JOIN_AS_SPECTATOR | DISTRIBUTE_CARD | SELECT_FIRST_TURN
| PICK_CARD_FROM_PILE | PICK_CARD_FROM_BURNED | BURN_ONE_HAND_CARD
| BURN_CARD | THROW_CARD | USE_ABILITY | EXCHANGE_PICK_WITH_HAND
| EXCHANGE_HAND_WITH_OTHER | SHOW_ONE_HAND_CARD | SHOW_ONE_OTHER_HAND_CARD
| NEXT_TURN | PASS | RESTART | LEAVE | NO_ACTION.

(** The numeric value TypeScript gives each member. *)
Definition code (a : t) : nat :=
  match a with
  | CREATE_GAME => 0 | START_GAME => 1 | PREPARE_ROUND => 2
  | START_ROUND => 3 | JOIN_AS_PLAYER => 4 | JOIN_AS_SPECTATOR => 5
  | DISTRIBUTE_CARD => 6 | SELECT_FIRST_TURN => 7
  | PICK_CARD_FROM_PILE => 8 | PICK_CARD_FROM_BURNED => 9
  | BURN_ONE_HAND_CARD => 10 | BURN_CARD => 11 | THROW_CARD => 12
  | USE_ABILITY => 13 | EXCHANGE_PICK_WITH_HAND => 14
  | EXCHANGE_HAND_WITH_OTHER => 15 | SHOW_ONE_HAND_CARD => 16
  | SHOW_ONE_OTHER_HAND_CARD => 17 | NEXT_TURN => 18 | PASS => 19
  | RESTART => 20 | LEAVE => 21 | NO_ACTION => 22
  end.

(** [_action === action] *)
Definition eqb (a b : t) : bool := Nat.eqb (code a) (code b).

End Action.

(** ** Identities as JavaScript values

    A user id reaches the engine as [payload?.userId]: it is a number, or
    [null], or [undefined] (no payload, or no such field).  The leader field
    starts as [null]. *)

Inductive JsId : Set :=
| undefined
| null
| num (n : Z).

(** Strict equality [===] on such values. *)
Definition strictEq (a b : JsId) : bool :=
  match a, b with
  | undefined, undefined => true
  | null, null => true
  | num x, num y => Z.eqb x y
  | _, _ => false
  end.

(** ** Cards *)

Module CardAbility.

(** Modelled from the spec: the enum [CardAbility] of [card.ts] is missing.
    The four named members are the ones [useAbilityAction] switches on; any
    other value an ability field may carry is [UNLISTED], which is what the
    [default] branch of that switch receives. *)
Inductive t : Set :=
| EXCHANGE_HAND_WITH_OTHER
| SHOW_ONE_HAND_CARD
| SHOW_ONE_OTHER_HAND_CARD
| NO_ABILITY
| UNLISTED (tag : nat).

End CardAbility.

(** Modelled from the spec: class [Card] of [card.ts] is missing.  A card is
    an opaque id, a suit, a rank, an ability tag and a mutable used flag. *)
Record Card : Set := mkCard {
  cid : string;
  suit : nat;
  rank : nat;
  ability : CardAbility.t;
  used : bool
}.

Definition getAbility (c : Card) : CardAbility.t := ability c.

Definition markAsUsed (c : Card) : Card :=
  mkCard (cid c) (suit c) (rank c) (ability c) true.

Definition equalsRank (c d : Card) : bool := Nat.eqb (rank c) (rank d).

Definition sameCard (c d : Card) : bool := String.eqb (cid c) (cid d).

(** ** Containers *)

Module CardStack.

(** Modelled from the spec: class [CardStack] of [card-stack.ts] is missing.
    An ordered pile whose head is its top: [put] lays a card on top, [top]
    peeks, and [pick] removes the top card and fails on an empty pile. *)
Definition t : Set := list Card.

Definition empty : t := [].

Definition isEmpty (s : t) : bool :=
  match s with [] => true | _ :: _ => false end.

Definition top (s : t) : option Card := hd_error s.

Definition put (c : Card) (s : t) : t := c :: s.

Definition pick (s : t) : option (Card * t) :=
  match s with
  | [] => None
  | c :: rest => Some (c, rest)
  end.

End CardStack.

Module Deck.

(** Modelled from the spec: class [Deck] of [deck.ts] is missing.  The deck
    is a container of the configured cards; [pop] takes the next card (the
    head) and there is nothing to take from an empty deck. *)
Definition t : Set := list Card.

Definition isEmpty (d : t) : bool :=
  match d with [] => true | _ :: _ => false end.

Definition pop (d : t) : option (Card * t) :=
  match d with
  | [] => None
  | c :: rest => Some (c, rest)
  end.

End Deck.

Module CardHand.

(** Modelled from the spec: class [CardHand] of [card-hand.ts] is missing.
    A hand is a collection looked up and removed from by card id. *)
Definition t : Set := list Card.

Definition empty : t := [].

Definition add (c : Card) (h : t) : t := h ++ [c].

Fixpoint remove (c : Card) (h : t) : t :=
  match h with
  | [] => []
  | d :: rest => if sameCard d c then rest else d :: remove c rest
  end.

Definition get (id : option string) (h : t) : option Card :=
  match id with
  | None => None
  | Some s => find (fun d => String.eqb (cid d) s) h
  end.

End CardHand.

(** Modelled from the spec: class [Player] of [player.ts] is missing.  A seat
    owns one hand; which user sits on it is recorded by the game, in
    [userPlayer]. *)
Record Player : Set := mkPlayer {
  handCards : CardHand.t
}.

Definition newPlayer : Player := mkPlayer CardHand.empty.

Definition addCardToHand (c : Card) (p : Player) : Player :=
  mkPlayer (CardHand.add c (handCards p)).

Definition getCard (p : Player) (id : option string) : option Card :=
  CardHand.get id (handCards p).

(** ** Phases (implementations of the [State] interface) *)

Inductive State : Set :=
| BeginOfGame | RoundStart | PickBurn | PilePicked | BurnedPicked
| ExchangeHandWithOther | ShowOneHandCard | ShowOneOtherHandCard
| Burn | EndRound | EndOfGame.

(** ** The payload of an action ([UserActionPayload]) *)

(** The id fields are JavaScript values: a number, [null] or [undefined]
    (numbers that are not integers are not modelled). *)
Record UserActionPayload : Set := mkPayload {
  userId : JsId;
  playerId : JsId;
  cardId : option string;
  otherPlayerId : JsId;
  otherCardId : option string
}.

(** [payload?.userId] *)
Definition payloadUserId (p : option UserActionPayload) : JsId :=
  match p with
  | None => undefined
  | Some q => userId q
  end.

(** ** The [Game] aggregate

    [userPlayer] is a [Map] from user id to a [Player] object that is also an
    element of [players]: the shared object is identified by its seat index,
    so a change of a seat's hand is seen through both; a user can also be
    bound to [undefined] ([None]), which is what [players[playerId]] is for
    a [playerId] that names no seat.  The map keeps insertion order.
    [turn] is [None] while the field is still unset. *)

Record Game : Set := mkGame {
  players : list Player;
  deck : Deck.t;
  burnedCards : CardStack.t;
  pileOfCards : CardStack.t;
  passedBy : option nat;
  turn : option nat;
  state : State;
  maxNumberOfPlayers : Z;
  isGameStarted : bool;
  pickedCard : option Card;
  leader : JsId;
  userPlayer : list (JsId * option nat)
}.

Definition MIN_NUMBER_OF_PLAYERS : Z := 3.
Definition MAX_NUMBER_OF_PLAYERS : Z := 8.
Definition DEFAULT_NUMBER_OF_CARDS_PER_HAND : nat := 4.

Definition INTERNAL_BASED_ACTION : list Action.t :=
  [Action.START_GAME; Action.START_ROUND; Action.DISTRIBUTE_CARD;
   Action.SELECT_FIRST_TURN; Action.NEXT_TURN].

Definition USER_BASED_ACTION : list Action.t :=
  [Action.JOIN_AS_PLAYER; Action.JOIN_AS_SPECTATOR; Action.LEAVE].

Definition LEADER_BASED_ACTIONS : list Action.t :=
  [Action.START_GAME; Action.RESTART].

Definition USER_TURN_BASED_ACTION : list Action.t :=
  [Action.BURN_CARD; Action.EXCHANGE_PICK_WITH_HAND; Action.PASS;
   Action.USE_ABILITY; Action.THROW_CARD; Action.PICK_CARD_FROM_BURNED;
   Action.PICK_CARD_FROM_PILE].

(** Field updates. *)

Definition with_players (g : Game) (ps : list Player) : Game :=
  mkGame ps (deck g) (burnedCards g) (pileOfCards g) (passedBy g) (turn g)
    (state g) (maxNumberOfPlayers g) (isGameStarted g) (pickedCard g)
    (leader g) (userPlayer g).

Definition with_deck (g : Game) (d : Deck.t) : Game :=
  mkGame (players g) d (burnedCards g) (pileOfCards g) (passedBy g) (turn g)
    (state g) (maxNumberOfPlayers g) (isGameStarted g) (pickedCard g)
    (leader g) (userPlayer g).

Definition with_burnedCards (g : Game) (s : CardStack.t) : Game :=
  mkGame (players g) (deck g) s (pileOfCards g) (passedBy g) (turn g)
    (state g) (maxNumberOfPlayers g) (isGameStarted g) (pickedCard g)
    (leader g) (userPlayer g).

Definition with_pileOfCards (g : Game) (s : CardStack.t) : Game :=
  mkGame (players g) (deck g) (burnedCards g) s (passedBy g) (turn g)
    (state g) (maxNumberOfPlayers g) (isGameStarted g) (pickedCard g)
    (leader g) (userPlayer g).

Definition with_passedBy (g : Game) (p : option nat) : Game :=
  mkGame (players g) (deck g) (burnedCards g) (pileOfCards g) p (turn g)
    (state g) (maxNumberOfPlayers g) (isGameStarted g) (pickedCard g)
    (leader g) (userPlayer g).

Definition with_turn (g : Game) (t : option nat) : Game :=
  mkGame (players g) (deck g) (burnedCards g) (pileOfCards g) (passedBy g) t
    (state g) (maxNumberOfPlayers g) (isGameStarted g) (pickedCard g)
    (leader g) (userPlayer g).

Definition with_state (g : Game) (s : State) : Game :=
  mkGame (players g) (deck g) (burnedCards g) (pileOfCards g) (passedBy g)
    (turn g) s (maxNumberOfPlayers g) (isGameStarted g) (pickedCard g)
    (leader g) (userPlayer g).

Definition with_isGameStarted (g : Game) (b : bool) : Game :=
  mkGame (players g) (deck g) (burnedCards g) (pileOfCards g) (passedBy g)
    (turn g) (state g) (maxNumberOfPlayers g) b (pickedCard g)
    (leader g) (userPlayer g).

Definition with_pickedCard (g : Game) (c : option Card) : Game :=
  mkGame (players g) (deck g) (burnedCards g) (pileOfCards g) (passedBy g)
    (turn g) (state g) (maxNumberOfPlayers g) (isGameStarted g) c
    (leader g) (userPlayer g).

Definition with_leader (g : Game) (l : JsId) : Game :=
  mkGame (players g) (deck g) (burnedCards g) (pileOfCards g) (passedBy g)
    (turn g) (state g) (maxNumberOfPlayers g) (isGameStarted g)
    (pickedCard g) l (userPlayer g).

Definition with_userPlayer (g : Game) (m : list (JsId * option nat))
  : Game :=
  mkGame (players g) (deck g) (burnedCards g) (pileOfCards g) (passedBy g)
    (turn g) (state g) (maxNumberOfPlayers g) (isGameStarted g)
    (pickedCard g) (leader g) m.

(** ** The [userPlayer] map *)

(** The entry of key [k], if there is one. *)
Fixpoint mapGet (k : JsId) (m : list (JsId * option nat))
  : option (option nat) :=
  match m with
  | [] => None
  | (k', v) :: rest => if strictEq k' k then Some v else mapGet k rest
  end.

Definition mapHas (k : JsId) (m : list (JsId * option nat)) : bool :=
  match mapGet k m with Some _ => true | None => false end.

Fixpoint mapSet (k : JsId) (v : option nat) (m : list (JsId * option nat))
  : list (JsId * option nat) :=
  match m with
  | [] => [(k, v)]
  | (k', v') :: rest =>
      if strictEq k' k then (k, v) :: rest else (k', v') :: mapSet k v rest
  end.

(** [this.userPlayer.get(userId)], as the seat object it refers to;
    [None] when the result is [undefined] (no entry, or an entry bound to
    [undefined]). *)
Definition userSeat (g : Game) (u : JsId) : option (nat * Player) :=
  match mapGet u (userPlayer g) with
  | Some (Some i) =>
      match nth_error (players g) i with
      | None => None
      | Some p => Some (i, p)
      end
  | _ => None
  end.

(** Writing through a seat reference. *)
Fixpoint updateAt (i : nat) (f : Player -> Player) (ps : list Player)
  : list Player :=
  match ps, i with
  | [], _ => []
  | p :: rest, O => f p :: rest
  | p :: rest, S j => p :: updateAt j f rest
  end.

Definition setHand (g : Game) (i : nat) (h : CardHand.t) : Game :=
  with_players g (updateAt i (fun _ => mkPlayer h) (players g)).

(** ** Errors and outcomes *)

Inductive Error : Set :=
| InvalidActionClass            (* [throw InvalidAction;] : the class itself *)
| InvalidAction (message : string)
| TypeError                     (* a member read on [undefined] or [null] *)
| OutOfCards                    (* nothing left in a container to take *)
| Unwound.                      (* recursion bound of the model reached *)

Definition defaultMessage : string := "Action is not allowed in current state".

(** A call either returns, or throws; in both cases the object is left in
    some state. *)
Inductive Outcome : Set :=
| Done (g : Game)
| Threw (e : Error) (g : Game).

Definition stateAfter (o : Outcome) : Game :=
  match o with
  | Done g => g
  | Threw _ g => g
  end.

Definition andThen (o : Outcome) (k : Game -> Outcome) : Outcome :=
  match o with
  | Done g => k g
  | Threw e g => Threw e g
  end.

Notation "'do' g <- o ;; k" := (andThen o (fun g => k))
  (at level 10, g name, o at level 100, k at level 200).

(** ** Sources of randomness

    [deck.shuffle()] and [Math.random()] are the only non-deterministic
    steps; their results are supplied from outside. *)

Record Random : Type := mkRandom {
  shuffle : list Card -> list Card;
  randomIndex : nat -> nat   (* [Math.floor(Math.random() * n)] *)
}.

Definition fairRandom (r : Random) : Prop :=
  (forall l, Permutation (shuffle r l) l) /\
  (forall n, 0 < n -> randomIndex r n < n).

(** ** Construction *)

Definition isValidMaxNumberOfPlayers (n : Z) : bool :=
  Z.leb MIN_NUMBER_OF_PLAYERS n && Z.leb n MAX_NUMBER_OF_PLAYERS.

(** [new Game(maxNumberOfPlayers, state)].  The missing [Deck] constructor
    is given the configured card set [cards]. *)
Definition newGame (cards : list Card) (maxPlayers : Z) (st : State)
  : option Game :=
  if isValidMaxNumberOfPlayers maxPlayers then
    Some (mkGame (repeat newPlayer (Z.to_nat maxPlayers)) cards
            CardStack.empty CardStack.empty None None st maxPlayers
            false None null [])
  else None.

(** ** Queries and the validator *)

Definition numberOfPlayers (g : Game) : nat := List.length (userPlayer g).

Definition isJoinedAsPlayer (g : Game) (u : JsId) : bool :=
  mapHas u (userPlayer g).

Definition isLeaderUser (g : Game) (u : JsId) : bool :=
  strictEq (leader g) u.

(** [0 <= playerId && playerId < this.players.length].  In a comparison
    [undefined] converts to [NaN], which compares false, and [null] converts
    to [0]. *)
Definition isValidPlayer (g : Game) (pid : JsId) : bool :=
  match pid with
  | undefined => false
  | null => Z.leb 0 0 && Z.ltb 0 (Z.of_nat (List.length (players g)))
  | num z => Z.leb 0 z && Z.ltb z (Z.of_nat (List.length (players g)))
  end.

(** [this.players[playerId]], as a reference: the seat at an index inside
    the array, [undefined] ([None]) for every other index and for [null] and
    [undefined], which name the properties "null" and "undefined". *)
Definition seatRef (g : Game) (pid : JsId) : option nat :=
  match pid with
  | num z =>
      if Z.leb 0 z && Z.ltb z (Z.of_nat (List.length (players g)))
      then Some (Z.to_nat z) else None
  | _ => None
  end.

Definition isFull (g : Game) : bool :=
  Z.eqb (Z.of_nat (numberOfPlayers g)) (maxNumberOfPlayers g).

(** Modelled from the spec: [Player.isOwner] is missing.  The spec binds a
    seat to the user who joined it; the source records that binding in
    [userPlayer], so the seat at index [i] is owned by the user that
    [userPlayer] maps to seat [i]. *)
Definition isOwner (g : Game) (i : nat) (u : JsId) : bool :=
  match mapGet u (userPlayer g) with
  | Some (Some j) => Nat.eqb j i
  | _ => false
  end.

(** [this.players[this.turn].isOwner(userId)]; [None] when there is no
    object at [players[turn]], where the member call throws. *)
Definition isUserTurn (g : Game) (u : JsId) : option bool :=
  match turn g with
  | None => None
  | Some t =>
      match nth_error (players g) t with
      | None => None
      | Some _ => Some (isOwner g t u)
      end
  end.

Definition isIn (action : Action.t) (l : list Action.t) : bool :=
  existsb (fun _action => Action.eqb _action action) l.

Definition isNullish (u : JsId) : bool :=
  match u with
  | undefined | null => true
  | num _ => false
  end.

Definition validateUsingActionBased (g : Game) (action : Action.t) (u : JsId)
  : option bool :=
  if isIn action LEADER_BASED_ACTIONS then Some (isLeaderUser g u)
  else if isIn action USER_BASED_ACTION then Some (negb (isNullish u))
  else if isIn action USER_TURN_BASED_ACTION then isUserTurn g u
  else Some (isNullish u && isIn action INTERNAL_BASED_ACTION).

(** ** Business methods of [Game]

    [self] stands for the re-entrant call [this.action(...)] that
    [setState] makes when the new phase is [RoundStart]. *)

Section Methods.

Variable self : Game -> Action.t -> option UserActionPayload -> Outcome.
Variable rnd : Random.

Definition setLeader (g : Game) (u : JsId) : Game := with_leader g u.

Definition setState (g : Game) (s : State) : Outcome :=
  let g' := with_state g s in
  match s with
  | RoundStart => self g' Action.START_ROUND None
  | _ => Done g'
  end.

(** On a turn that is still unset the source computes [NaN], which like
    the unset value indexes no seat: [None] stands for both. *)
Definition nextTurn (g : Game) : Game :=
  match turn g with
  | None => g
  | Some t => with_turn g (Some ((t + 1) mod List.length (players g)))
  end.

(** The inner [for] loop of [distributeCardsAction]: [n] cards to seat [i]. *)
Fixpoint dealHand (n i : nat) (g : Game) : Outcome :=
  match n with
  | O => Done g
  | S n' =>
      match Deck.pop (deck g) with
      | None => Threw OutOfCards g
      | Some (c, d) =>
          dealHand n' i
            (with_players (with_deck g d)
               (updateAt i (addCardToHand c) (players g)))
      end
  end.

(** [this.players.forEach(...)] *)
Fixpoint forEachSeat (seats : list nat) (body : nat -> Game -> Outcome)
  (g : Game) : Outcome :=
  match seats with
  | [] => Done g
  | i :: rest => do g' <- body i g ;; forEachSeat rest body g'
  end.

(** [while (!this.deck.isEmpty()) this.pileOfCards.put(this.deck.pop())] *)
Fixpoint moveDeckToPile (d : Deck.t) (pile : CardStack.t) : CardStack.t :=
  match d with
  | [] => pile
  | c :: d' => moveDeckToPile d' (CardStack.put c pile)
  end.

Definition distributeCardsAction (g : Game) : Outcome :=
  do g1 <- forEachSeat (seq 0 (List.length (players g)))
             (dealHand DEFAULT_NUMBER_OF_CARDS_PER_HAND) g ;;
  Done (with_pileOfCards (with_deck g1 [])
          (moveDeckToPile (deck g1) (pileOfCards g1))).

(** [emitTwoCards] only notifies the seat's user. *)
Definition showTwoHandCardsAction (g : Game) : Game := g.

Definition selectFirstTurnAction (g : Game) : Game :=
  with_turn g (Some (randomIndex rnd (List.length (players g)))).

Definition startRoundAction (g : Game) : Outcome :=
  do g1 <- distributeCardsAction g ;;
  setState (showTwoHandCardsAction g1) PickBurn.

Definition startGameAction (g : Game) : Outcome :=
  if isGameStarted g then Threw (InvalidAction "Game already started") g
  else
    let g1 := with_isGameStarted g true in
    let g2 := with_deck g1 (shuffle rnd (deck g1)) in
    let g3 := selectFirstTurnAction g2 in
    setState g3 RoundStart.

Definition pickCardFromPileAction (g : Game) : Outcome :=
  match CardStack.pick (pileOfCards g) with
  | None => Threw (InvalidAction "empty pile") g
  | Some (c, rest) =>
      setState (with_pickedCard (with_pileOfCards g rest) (Some c)) PilePicked
  end.

Definition pickCardFromBurnedAction (g : Game) : Outcome :=
  match CardStack.pick (burnedCards g) with
  | None => Threw (InvalidAction "empty pile") g
  | Some (c, rest) =>
      setState (with_pickedCard (with_burnedCards g rest) (Some c))
        BurnedPicked
  end.

Definition burnOneHandCardAction (g : Game) (u : JsId) (id : option string)
  : Outcome :=
  if CardStack.isEmpty (burnedCards g) then
    Threw (InvalidAction "Burned cards stack is empty") g
  else
    match userSeat g u with
    | None => Threw TypeError g
    | Some (i, player) =>
        match getCard player id, CardStack.top (burnedCards g) with
        | Some card, Some topBurnedCard =>
            if equalsRank card topBurnedCard then
              let g1 := setHand g i (CardHand.remove card (handCards player)) in
              let g2 := with_burnedCards g1 (CardStack.put card (burnedCards g1)) in
              setState g2 EndRound
            else
              match CardStack.pick (burnedCards g) with
              | None => Threw (InvalidAction "empty pile") g
              | Some (c, rest) =>
                  let g1 := with_burnedCards g rest in
                  let g2 := setHand g1 i (CardHand.add c (handCards player)) in
                  setState g2 EndRound
              end
        | _, _ => Threw TypeError g
        end
    end.

Definition useAbilityAction (g : Game) : Outcome :=
  match pickedCard g with
  | None => Threw TypeError g
  | Some c =>
      let cardAbility := getAbility c in
      let g1 := with_pickedCard g (Some (markAsUsed c)) in
      match cardAbility with
      | CardAbility.EXCHANGE_HAND_WITH_OTHER => setState g1 ExchangeHandWithOther
      | CardAbility.SHOW_ONE_HAND_CARD => setState g1 ShowOneHandCard
      | CardAbility.SHOW_ONE_OTHER_HAND_CARD => setState g1 ShowOneOtherHandCard
      | CardAbility.NO_ABILITY => setState g1 Burn
      | CardAbility.UNLISTED _ => Threw (InvalidAction "Unknown ability") g1
      end
  end.

Definition exchangePickWithHandAction (g : Game) (u : JsId)
  (id : option string) : Outcome :=
  match userSeat g u with
  | None => Threw TypeError g
  | Some (_, player) =>
      let card := getCard player id in
      let pickedCard := pickedCard g in
      let '(pickedCard, card) := (card, pickedCard) in
      setState g Burn
  end.

(** [this.players[otherPlayerId]], as the seat object. *)
Definition seatAt (g : Game) (pid : JsId) : option (nat * Player) :=
  match seatRef g pid with
  | None => None
  | Some i =>
      match nth_error (players g) i with
      | None => None
      | Some p => Some (i, p)
      end
  end.

(** [player === otherPlayer] on seat objects. *)
Definition sameSeat (a b : option (nat * Player)) : bool :=
  match a, b with
  | Some (i, _), Some (j, _) => Nat.eqb i j
  | None, None => true
  | _, _ => false
  end.

Definition exchangeHandWithOther (g : Game) (u : JsId) (id : option string)
  (other : JsId) (otherId : option string) : Outcome :=
  if isValidPlayer g other then
    let player := userSeat g u in
    let otherPlayer := seatAt g other in
    if sameSeat player otherPlayer then
      Threw (InvalidAction "Changing card with your self is not allowed") g
    else
      match player, otherPlayer with
      | Some (_, p), Some (_, q) =>
          let playerCard := getCard p id in
          let otherPlayerCard := getCard q otherId in
          let '(playerCard, otherPlayerCard) := (otherPlayerCard, playerCard) in
          setState g Burn
      | _, _ => Threw TypeError g
      end
  else Threw (InvalidAction "Pick valid card your turn.") g.

Definition showOneHandCardAction (g : Game) (u : JsId) (id : option string)
  : Outcome :=
  match userSeat g u with
  | None => Threw TypeError g
  | Some (_, player) =>
      let card := getCard player id in
      setState g Burn
  end.

Definition showOneOtherHandCardAction (g : Game) (u : JsId)
  (other : JsId) (otherId : option string) : Outcome :=
  if isValidPlayer g other then
    match seatAt g other with
    | None => Threw TypeError g
    | Some (_, q) =>
        let card := getCard q otherId in
        setState g Burn
    end
  else Threw (InvalidAction "Pick valid card") g.

Definition passAction (g : Game) : Game :=
  with_passedBy g
    (match turn g with
     | None => None
     | Some t =>
         match nth_error (players g) t with
         | None => None
         | Some _ => Some t
         end
     end).

Definition endOfTurn (g : Game) : Game := with_pickedCard g None.

Definition joinAsPlayerAction (g : Game) (u : JsId) (pid : JsId)
  : Outcome :=
  if isJoinedAsPlayer g u then
    Threw (InvalidAction "Player already joined") g
  else if negb (isValidPlayer g pid) then
    Threw (InvalidAction "Invalid position or already taken") g
  else if isFull g then
    Threw (InvalidAction "The game is already full join another game") g
  else
    let g1 := if Nat.eqb (numberOfPlayers g) 0 then setLeader g u else g in
    Done (with_userPlayer g1 (mapSet u (seatRef g1 pid) (userPlayer g1))).

(** ** Phase handlers

    Only [Burn] and [EndOfGame] are in the source tree; the handler of
    [EndRound] is left open as [EndRound_action]. *)

Variable EndRound_action :
  Game -> Action.t -> option UserActionPayload -> Outcome.

Definition notAllowed (g : Game) : Outcome :=
  Threw (InvalidAction defaultMessage) g.

(** Modelled from the spec: [state/begin-of-game.ts] is missing.
    [BeginOfGame --START_GAME--> RoundStart], every other action rejected. *)
Definition BeginOfGame_action (g : Game) (a : Action.t)
  (payload : option UserActionPayload) : Outcome :=
  match a with
  | Action.START_GAME => startGameAction g
  | _ => notAllowed g
  end.

(** Modelled from the spec: [state/round-start.ts] is missing.
    [RoundStart --(internal) START_ROUND--> PickBurn]. *)
Definition RoundStart_action (g : Game) (a : Action.t)
  (payload : option UserActionPayload) : Outcome :=
  match a with
  | Action.START_ROUND => startRoundAction g
  | _ => notAllowed g
  end.

(** Modelled from the spec: [state/pick-burn.ts] is missing.
    [PickBurn --PICK_CARD_FROM_PILE--> PilePicked] and
    [PickBurn --PICK_CARD_FROM_BURNED--> BurnedPicked]. *)
Definition PickBurn_action (g : Game) (a : Action.t)
  (payload : option UserActionPayload) : Outcome :=
  match a with
  | Action.PICK_CARD_FROM_PILE => pickCardFromPileAction g
  | Action.PICK_CARD_FROM_BURNED => pickCardFromBurnedAction g
  | _ => notAllowed g
  end.

(** Modelled from the spec: [state/pile-picked.ts] and
    [state/burned-picked.ts] are missing.  Both accept [USE_ABILITY] only. *)
Definition PilePicked_action (g : Game) (a : Action.t)
  (payload : option UserActionPayload) : Outcome :=
  match a with
  | Action.USE_ABILITY => useAbilityAction g
  | _ => notAllowed g
  end.

Definition BurnedPicked_action := PilePicked_action.

(** Modelled from the spec: the three ability-resolution handlers are
    missing.  Each accepts the action of its own name and moves to [Burn]. *)
Definition ExchangeHandWithOther_action (g : Game) (a : Action.t)
  (payload : option UserActionPayload) : Outcome :=
  match a, payload with
  | Action.EXCHANGE_HAND_WITH_OTHER, Some q =>
      exchangeHandWithOther g (userId q) (cardId q) (otherPlayerId q)
        (otherCardId q)
  | Action.EXCHANGE_HAND_WITH_OTHER, None => Threw TypeError g
  | _, _ => notAllowed g
  end.

Definition ShowOneHandCard_action (g : Game) (a : Action.t)
  (payload : option UserActionPayload) : Outcome :=
  match a, payload with
  | Action.SHOW_ONE_HAND_CARD, Some q =>
      showOneHandCardAction g (userId q) (cardId q)
  | Action.SHOW_ONE_HAND_CARD, None => Threw TypeError g
  | _, _ => notAllowed g
  end.

Definition ShowOneOtherHandCard_action (g : Game) (a : Action.t)
  (payload : option UserActionPayload) : Outcome :=
  match a, payload with
  | Action.SHOW_ONE_OTHER_HAND_CARD, Some q =>
      showOneOtherHandCardAction g (userId q) (otherPlayerId q)
        (otherCardId q)
  | Action.SHOW_ONE_OTHER_HAND_CARD, None => Threw TypeError g
  | _, _ => notAllowed g
  end.

(** [context.burnAction()], as [state/burn.ts] calls it, without
    arguments.  The [Game] class has no member of that name (its burn step
    is [burnOneHandCardAction]), so the call is a call of [undefined]: it
    throws a [TypeError] and nothing has changed. *)
Definition burnAction (g : Game) : Outcome := Threw TypeError g.

(** [Burn.action] of [state/burn.ts]. *)
Definition Burn_action (g : Game) (a : Action.t)
  (payload : option UserActionPayload) : Outcome :=
  match a with
  | Action.BURN_CARD => burnAction g
  | _ => notAllowed g
  end.

(** [state/end-of-game.ts] switches on [Action.END_OF_GAME], which is not a
    member of the enum: no action code matches it. *)
Definition EndOfGame_action (g : Game) (a : Action.t)
  (payload : option UserActionPayload) : Outcome :=
  notAllowed g.

(** [this.state.action(this, action, payload)] *)
Definition state_action (g : Game) (a : Action.t)
  (payload : option UserActionPayload) : Outcome :=
  match state g with
  | BeginOfGame => BeginOfGame_action g a payload
  | RoundStart => RoundStart_action g a payload
  | PickBurn => PickBurn_action g a payload
  | PilePicked => PilePicked_action g a payload
  | BurnedPicked => BurnedPicked_action g a payload
  | ExchangeHandWithOther => ExchangeHandWithOther_action g a payload
  | ShowOneHandCard => ShowOneHandCard_action g a payload
  | ShowOneOtherHandCard => ShowOneOtherHandCard_action g a payload
  | Burn => Burn_action g a payload
  | EndRound => EndRound_action g a payload
  | EndOfGame => EndOfGame_action g a payload
  end.

(** The body of [Game.action]. *)
Definition action_body (g : Game) (a : Action.t)
  (payload : option UserActionPayload) : Outcome :=
  match validateUsingActionBased g a (payloadUserId payload) with
  | None => Threw TypeError g
  | Some false => Threw InvalidActionClass g
  | Some true =>
      match a, payload with
      | Action.JOIN_AS_PLAYER, Some q =>
          joinAsPlayerAction g (userId q) (playerId q)
      | Action.JOIN_AS_PLAYER, None => Threw TypeError g
      | _, _ => state_action g a payload
      end
  end.

End Methods.

(** [Game.action], with the depth of re-entrant calls bounded by [depth]. *)
Fixpoint action (rnd : Random)
  (EndRound_action : Game -> Action.t -> option UserActionPayload -> Outcome)
  (depth : nat) (g : Game) (a : Action.t)
  (payload : option UserActionPayload) : Outcome :=
  match depth with
  | O => Threw Unwound g
  | S d =>
      action_body (action rnd EndRound_action d) rnd EndRound_action g a
        payload
  end.

(** The entry point: one re-entrant call ([START_ROUND] from [setState])
    is all the source ever makes. *)
Definition doAction (rnd : Random)
  (EndRound_action : Game -> Action.t -> option UserActionPayload -> Outcome)
  : Game -> Action.t -> option UserActionPayload -> Outcome :=
  action rnd EndRound_action 2.

(** ** A concrete configuration

    A 52-card set (4 suits of 13 ranks, ids ["AA"], ["AB"], ...), the
    identity shuffle with first turn 0, and an [EndRound] handler that
    accepts nothing. *)

Definition cardName (s r : nat) : string :=
  String (ascii_of_nat (65 + s)) (String (ascii_of_nat (65 + r)) EmptyString).

Definition plainCard (s r : nat) : Card :=
  mkCard (cardName s r) s r CardAbility.NO_ABILITY false.

Definition standardCards : list Card :=
  flat_map (fun s => map (plainCard s) (seq 0 13)) (seq 0 4).

Definition fixedRandom : Random := mkRandom (fun l => l) (fun _ => 0).

Definition closedEndRound (g : Game) (a : Action.t)
  (payload : option UserActionPayload) : Outcome := notAllowed g.

Definition play := doAction fixedRandom closedEndRound.

Definition asUser (n : Z) : option UserActionPayload :=
  Some (mkPayload (num n) undefined None undefined None).

Definition joinAt (n seat : Z) : option UserActionPayload :=
  Some (mkPayload (num n) (num seat) None undefined None).

Definition withCard (n : Z) (id : string) : option UserActionPayload :=
  Some (mkPayload (num n) undefined (Some id) undefined None).

(** Runs a script of calls, stopping at the first one that throws. *)
Fixpoint playAll (script : list (Action.t * option UserActionPayload))
  (g : Game) : Outcome :=
  match script with
  | [] => Done g
  | (a, p) :: rest => do g' <- play g a p ;; playAll rest g'
  end.

Definition fresh (cards : list Card) (n : Z) : Game :=
  match newGame cards n BeginOfGame with
  | Some g => g
  | None => mkGame [] [] [] [] None None BeginOfGame n false None null []
  end.

(** Three users on the three seats of a 3-seat game; the same after the
    leader started it; and after the user of seat 0 picked from the pile. *)
Definition threeJoins : list (Action.t * option UserActionPayload) :=
  [(Action.JOIN_AS_PLAYER, joinAt 1 0);
   (Action.JOIN_AS_PLAYER, joinAt 2 1);
   (Action.JOIN_AS_PLAYER, joinAt 3 2)].

Definition seated3 : Game :=
  stateAfter (playAll threeJoins (fresh standardCards 3)).

Definition started3 : Game :=
  stateAfter (play seated3 Action.START_GAME (asUser 1)).

Definition picked3 : Game :=
  stateAfter (play started3 Action.PICK_CARD_FROM_PILE (asUser 1)).

(** A game in phase [Burn] whose burn pile holds one card of rank 0. *)
Definition burnReady : Game :=
  with_burnedCards
    (stateAfter (play picked3 Action.USE_ABILITY (asUser 1)))
    [plainCard 1 0].

(** A card set whose last card carries an ability tag outside the four
    known ones; it ends up on top of the draw pile. *)
Definition oddCard : Card := mkCard "ZZ" 9 9 (CardAbility.UNLISTED 99) false.

Definition oddCards : list Card := firstn 51 standardCards ++ [oddCard].

Definition oddPicked : Game :=
  stateAfter
    (playAll (threeJoins ++
              [(Action.START_GAME, asUser 1);
               (Action.PICK_CARD_FROM_PILE, asUser 1)])
       (fresh oddCards 3)).

(** One user on seat 0 of a 3-seat game, seats 1 and 2 vacant. *)
Definition seated1 : Game :=
  stateAfter (play (fresh standardCards 3) Action.JOIN_AS_PLAYER (joinAt 1 0)).

(** ** Vocabulary of the statements *)

(** Some user is bound to seat [i]. *)
Definition seatTaken (g : Game) (i : nat) : bool :=
  existsb (fun kv => match snd kv with
                     | Some j => Nat.eqb j i
                     | None => false
                     end) (userPlayer g).

(** From [g] to [g'], every seat with a user gained the fixed hand size and
    every other seat kept its hand. *)
Definition dealsOnlyToSeated (g g' : Game) : Prop :=
  forall i p p',
    nth_error (players g) i = Some p ->
    nth_error (players g') i = Some p' ->
    if seatTaken g i
    then List.length (handCards p')
         = List.length (handCards p) + DEFAULT_NUMBER_OF_CARDS_PER_HAND
    else handCards p' = handCards p.

(** The hands after a deal from deck [d], seat by seat. *)
Fixpoint dealAll (d : list Card) (ps : list Player) : list Player :=
  match ps with
  | [] => []
  | p :: rest =>
      mkPlayer (handCards p ++ firstn 4 d) :: dealAll (skipn 4 d) rest
  end.

(** The ids of the cards in all hands, in the four containers of the
    conservation property, and in those together with the picked card. *)
Definition handIds (ps : list Player) : list string :=
  flat_map (fun p => map cid (handCards p)) ps.

Definition containerIds (g : Game) : list string :=
  map cid (deck g) ++ map cid (pileOfCards g) ++ map cid (burnedCards g)
    ++ handIds (players g).

Definition pickedIds (g : Game) : list string :=
  match pickedCard g with
  | Some c => [cid c]
  | None => []
  end.

Definition heldIds (g : Game) : list string :=
  containerIds g ++ pickedIds g.

(** The states a game created with card set [cards] and [n] seats can be in:
    the fresh game, and the state left by any call of [doAction], whether it
    returned or threw, whatever the random draws and the [EndRound]
    handler. *)
Inductive reachable (cards : list Card) (n : Z) : Game -> Prop :=
| reach_new g :
    newGame cards n BeginOfGame = Some g -> reachable cards n g
| reach_call g rnd ER a payload :
    reachable cards n g ->
    fairRandom rnd ->
    reachable cards n (stateAfter (doAction rnd ER g a payload)).

(** What holds of every reachable state. *)
Record invariant (cards : list Card) (g : Game) : Prop := mkInvariant {
  inv_cards : Permutation (heldIds g) (map cid cards);
  inv_burned : burnedCards g = [];
  inv_picked :
    state g = BeginOfGame \/ state g = RoundStart \/ state g = PickBurn ->
    pickedCard g = None;
  inv_phase : state g <> EndRound
}.

(** [g'] holds the same cards as [g], in the same phase. *)
Record sameCards (g g' : Game) : Prop := mkSameCards {
  same_ids : Permutation (heldIds g') (heldIds g);
  same_burned : burnedCards g' = burnedCards g;
  same_picked : pickedCard g' = pickedCard g;
  same_state : state g' = state g;
  same_seats : List.length (players g') = List.length (players g)
}.

Definition preserves (cards : list Card)
  (f : Game -> Action.t -> option UserActionPayload -> Outcome) : Prop :=
  forall g a payload,
    invariant cards g -> invariant cards (stateAfter (f g a payload)).

(** ** Calls of the transport layer into the engine ([GameSocketService])

    Only what decides which engine call is made is kept: the lookups in the
    registry maps and the payload handed to [doAction].  What is sent back
    to sockets is left out. *)

Inductive Refusal : Set :=
| NotInGame          (* "User#... is not in game" *)
| AllGamesFull       (* "All games are full create new game..." *)
| NoGameYet.         (* "Be the first one to create a new game!" *)

Inductive EventResult : Set :=
| Forwarded (game : Game) (o : Outcome)   (* [game.doAction(...)] was called *)
| Refused (why : Refusal).

(** [GameSocketService.userGames.get(userId)] *)
Fixpoint userGame (u : Z) (userGames : list (Z * Game)) : option Game :=
  match userGames with
  | [] => None
  | (k, game) :: rest => if Z.eqb k u then Some game else userGame u rest
  end.

(** [const {action, ...actionPayload} = payload;
     actionPayload.userId = userId;] *)
Definition actionPayload (u : Z) (payload : UserActionPayload)
  : UserActionPayload :=
  mkPayload (num u) (playerId payload) (cardId payload)
    (otherPlayerId payload) (otherCardId payload).

Definition actionEvent (rnd : Random)
  (ER : Game -> Action.t -> option UserActionPayload -> Outcome)
  (userGames : list (Z * Game)) (u : Z) (a : Action.t)
  (payload : UserActionPayload) : EventResult :=
  match userGame u userGames with
  | None => Refused NotInGame
  | Some game =>
      Forwarded game (doAction rnd ER game a (Some (actionPayload u payload)))
  end.

(** The [forEach] of [joinQueueEvent]: the [return] only leaves the
    callback, so every game is visited and a later match overwrites an
    earlier one. *)
Definition queueGame (games : list Game) : option Game :=
  fold_left
    (fun game _game => if negb (isFull _game) then Some _game else game)
    games None.

Definition joinQueueEvent (rnd : Random)
  (ER : Game -> Action.t -> option UserActionPayload -> Outcome)
  (games : list Game) (u : Z) : EventResult :=
  match queueGame games with
  | Some game =>
      Forwarded game
        (doAction rnd ER game Action.JOIN_AS_PLAYER
           (Some (mkPayload (num u) undefined None undefined None)))
  | None =>
      Refused (match games with [] => NoGameYet | _ :: _ => AllGamesFull end)
  end.

(** ** More vocabulary *)

(** Action codes that are in none of the validator's four lists, and the
    ones that are internal only. *)
Definition UNLISTED_ACTIONS : list Action.t :=
  [Action.CREATE_GAME; Action.PREPARE_ROUND; Action.BURN_ONE_HAND_CARD;
   Action.EXCHANGE_HAND_WITH_OTHER; Action.SHOW_ONE_HAND_CARD;
   Action.SHOW_ONE_OTHER_HAND_CARD; Action.NO_ACTION].

Definition INTERNAL_ONLY_ACTIONS : list Action.t :=
  [Action.START_ROUND; Action.DISTRIBUTE_CARD; Action.SELECT_FIRST_TURN;
   Action.NEXT_TURN].

(** The key of the oldest entry of [userPlayer]. *)
Definition firstJoiner (g : Game) : JsId :=
  match userPlayer g with
  | [] => null
  | (u, _) :: _ => u
  end.

(** What holds of the seating of every reachable state of a game created
    with [n] seats. *)
Record seatingOk (n : Z) (g : Game) : Prop := mkSeatingOk {
  so_bounds : (3 <= n <= 8)%Z;
  so_max : maxNumberOfPlayers g = n;
  so_seats : List.length (players g) = Z.to_nat n;
  so_capacity : List.length (userPlayer g) <= Z.to_nat n;
  so_users :
    Forall (fun kv => (exists z, fst kv = num z) /\
                      match snd kv with
                      | Some i => i < List.length (players g)
                      | None => True
                      end) (userPlayer g);
  so_distinct : NoDup (map fst (userPlayer g));
  so_leader : leader g = firstJoiner g;
  so_not_started :
    isGameStarted g = false -> state g = BeginOfGame /\ turn g = None;
  so_started :
    isGameStarted g = true ->
    exists t, turn g = Some t /\ t < List.length (players g)
}.

(** From [g] to [g'] the user-to-seat binding is the same, or one user who
    was not bound was appended to it; the leader changes only when that user
    is the first. *)
Definition joinStep (g g' : Game) : Prop :=
  (userPlayer g' = userPlayer g /\ leader g' = leader g) \/
  (exists u i,
     mapGet u (userPlayer g) = None /\
     userPlayer g' = userPlayer g ++ [(u, i)] /\
     leader g' = match userPlayer g with [] => u | _ :: _ => leader g end).

(** The phase an ability leads to. *)
Definition abilityPhase (a : CardAbility.t) : option State :=
  match a with
  | CardAbility.EXCHANGE_HAND_WITH_OTHER => Some ExchangeHandWithOther
  | CardAbility.SHOW_ONE_HAND_CARD => Some ShowOneHandCard
  | CardAbility.SHOW_ONE_OTHER_HAND_CARD => Some ShowOneOtherHandCard
  | CardAbility.NO_ABILITY => Some Burn
  | CardAbility.UNLISTED _ => None
  end.

(** [g'] has the seating, the leader, the started flag and the turn of
    [g]. *)
Record sameSeating (g g' : Game) : Prop := mkSameSeating {
  ss_users : userPlayer g' = userPlayer g;
  ss_leader : leader g' = leader g;
  ss_seats : List.length (players g') = List.length (players g);
  ss_max : maxNumberOfPlayers g' = maxNumberOfPlayers g;
  ss_started : isGameStarted g' = isGameStarted g;
  ss_turn : turn g' = turn g
}.

(** A 3-seat game after a join whose payload names the seat [null]. *)
Definition nullJoin : option UserActionPayload :=
  Some (mkPayload (num 1) null None undefined None).

Definition nullJoined : Game :=
  stateAfter (play (fresh standardCards 3) Action.JOIN_AS_PLAYER nullJoin).

(** * Properties *)

(** ** Basic facts *)

(** Reduces field reads of updated records, and nothing else. *)
Ltac fields :=
  cbn [players deck burnedCards pileOfCards passedBy turn state
       maxNumberOfPlayers isGameStarted pickedCard leader userPlayer
       with_players with_deck with_burnedCards with_pileOfCards
       with_passedBy with_turn with_state with_isGameStarted
       with_pickedCard with_leader with_userPlayer setHand] in *.

Lemma Action_eqb_eq (a b : Action.t) : Action.eqb a b = true <-> a = b.
Proof.
  split.
  - destruct a, b; simpl; intros H; try reflexivity; discriminate H.
  - intros ->. apply Nat.eqb_refl.
Qed.

Lemma isIn_In (a : Action.t) (l : list Action.t) :
  isIn a l = true <-> In a l.
Proof.
  unfold isIn. rewrite existsb_exists. split.
  - intros [x [Hx He]]. apply Action_eqb_eq in He. now subst.
  - intros H. exists a. split; [assumption | now apply Action_eqb_eq].
Qed.

Section MethodFacts.

Variable self : Game -> Action.t -> option UserActionPayload -> Outcome.

Lemma setState_plain (g : Game) (s : State) :
  s <> RoundStart -> setState self g s = Done (with_state g s).
Proof. destruct s; intros H; try reflexivity. now elim H. Qed.

Lemma pickCardFromPileAction_eq (g : Game) :
  pickCardFromPileAction self g =
  match pileOfCards g with
  | [] => Threw (InvalidAction "empty pile") g
  | c :: rest =>
      Done (with_state (with_pickedCard (with_pileOfCards g rest) (Some c))
              PilePicked)
  end.
Proof. unfold pickCardFromPileAction. now destruct (pileOfCards g). Qed.

Lemma pickCardFromBurnedAction_eq (g : Game) :
  pickCardFromBurnedAction self g =
  match burnedCards g with
  | [] => Threw (InvalidAction "empty pile") g
  | c :: rest =>
      Done (with_state (with_pickedCard (with_burnedCards g rest) (Some c))
              BurnedPicked)
  end.
Proof. unfold pickCardFromBurnedAction. now destruct (burnedCards g). Qed.

End MethodFacts.

Lemma doAction_unfold rnd ER g a payload :
  doAction rnd ER g a payload =
  action_body (action rnd ER 1) rnd ER g a payload.
Proof. reflexivity. Qed.

(** A turn-based action is in no earlier bucket of the validator. *)
Lemma validate_turn_based g a u :
  In a USER_TURN_BASED_ACTION ->
  validateUsingActionBased g a u = isUserTurn g u.
Proof.
  intros H. unfold validateUsingActionBased.
  simpl in H. decompose [or] H; subst; try reflexivity; contradiction.
Qed.

Lemma validate_leader_based g a u :
  In a LEADER_BASED_ACTIONS ->
  validateUsingActionBased g a u = Some (isLeaderUser g u).
Proof.
  intros H. unfold validateUsingActionBased.
  simpl in H. decompose [or] H; subst; try reflexivity; contradiction.
Qed.

(** ** Authorization *)

(** C10: [BURN_ONE_HAND_CARD] is in none of the validator's four lists, so
    the validator answers [false] for it in every state and for every user
    id, and [doAction] throws before any phase handler runs (whatever the
    handlers are), leaving the game as it was. *)
Theorem burn_one_hand_card_always_rejected rnd ER g payload :
  isIn Action.BURN_ONE_HAND_CARD LEADER_BASED_ACTIONS = false /\
  isIn Action.BURN_ONE_HAND_CARD USER_BASED_ACTION = false /\
  isIn Action.BURN_ONE_HAND_CARD USER_TURN_BASED_ACTION = false /\
  isIn Action.BURN_ONE_HAND_CARD INTERNAL_BASED_ACTION = false /\
  validateUsingActionBased g Action.BURN_ONE_HAND_CARD (payloadUserId payload)
    = Some false /\
  doAction rnd ER g Action.BURN_ONE_HAND_CARD payload
    = Threw InvalidActionClass g.
Proof.
  assert (V : validateUsingActionBased g Action.BURN_ONE_HAND_CARD
                (payloadUserId payload) = Some false).
  { unfold validateUsingActionBased. simpl.
    now rewrite andb_false_r. }
  repeat split; try reflexivity; try exact V.
  rewrite doAction_unfold. unfold action_body. now rewrite V.
Qed.

(** C4: a turn-based action whose user is not the owner of the seat at the
    turn index, and a leader-based action whose user is not the stored
    leader, are rejected by [doAction] with an error, and the game is left
    exactly as it was. *)
Theorem unauthorized_action_rejected rnd ER g a payload :
  (In a USER_TURN_BASED_ACTION /\
   isUserTurn g (payloadUserId payload) <> Some true) \/
  (In a LEADER_BASED_ACTIONS /\
   isLeaderUser g (payloadUserId payload) = false) ->
  exists e, doAction rnd ER g a payload = Threw e g.
Proof.
  intros [[Ha Hu] | [Ha Hu]]; rewrite doAction_unfold; unfold action_body.
  - rewrite (validate_turn_based g a _ Ha).
    destruct (isUserTurn g (payloadUserId payload)) as [[|]|].
    + now elim Hu.
    + now exists InvalidActionClass.
    + now exists TypeError.
  - rewrite (validate_leader_based g a _ Ha), Hu.
    now exists InvalidActionClass.
Qed.

(** ** Picking a card *)


(** ** Exchanges *)

(** C6: when [exchangePickWithHandAction] or [exchangeHandWithOther]
    returns, the game differs from the one before only in its phase, which
    is [Burn]: every hand, the picked card and the user-to-seat binding are
    the same. *)
Theorem exchange_changes_phase_only self g u id other otherId g' :
  exchangePickWithHandAction self g u id = Done g' \/
  exchangeHandWithOther self g u id other otherId = Done g' ->
  g' = with_state g Burn /\
  players g' = players g /\
  pickedCard g' = pickedCard g /\
  userPlayer g' = userPlayer g /\
  state g' = Burn.
Proof.
  intros H.
  assert (E : g' = with_state g Burn).
  { destruct H as [H | H].
    - unfold exchangePickWithHandAction in H.
      destruct (userSeat g u) as [[i p]|]; [| discriminate H].
      simpl in H. now inversion H.
    - unfold exchangeHandWithOther in H.
      destruct (isValidPlayer g other); [| discriminate H].
      destruct (sameSeat (userSeat g u) (seatAt g other)); [discriminate H |].
      destruct (userSeat g u) as [[i p]|]; [| discriminate H].
      destruct (seatAt g other) as [[j q]|]; [| discriminate H].
      simpl in H. now inversion H. }
  subst g'. repeat split; reflexivity.
Qed.

(** ** The burn step *)

Lemma getCard_In (p : Player) (id : option string) (c : Card) :
  getCard p id = Some c -> In c (handCards p) /\ id = Some (cid c).
Proof.
  unfold getCard, CardHand.get. destruct id as [s|]; [| discriminate].
  intros H. apply find_some in H. destruct H as [Hin He].
  apply String.eqb_eq in He. now subst.
Qed.

Lemma remove_length (c : Card) (h : CardHand.t) :
  In c h -> S (List.length (CardHand.remove c h)) = List.length h.
Proof.
  induction h as [|d h IH]; simpl; [contradiction |].
  intros [-> | Hin].
  - unfold sameCard. now rewrite String.eqb_refl.
  - destruct (sameCard d c); [reflexivity |]. simpl. now rewrite IH.
Qed.

Lemma remove_ids_subset (c : Card) (h : CardHand.t) (s : string) :
  In s (map cid (CardHand.remove c h)) -> In s (map cid h).
Proof.
  induction h as [|d h IH]; simpl; [tauto |].
  destruct (sameCard d c); simpl; tauto.
Qed.

Lemma remove_gone (c : Card) (h : CardHand.t) :
  NoDup (map cid h) -> ~ In (cid c) (map cid (CardHand.remove c h)).
Proof.
  induction h as [|d h IH]; simpl; [tauto |].
  intros Hnd. inversion Hnd as [| x l Hx Hl]; subst.
  unfold sameCard at 1. destruct (String.eqb (cid d) (cid c)) eqn:E.
  - apply String.eqb_eq in E. now rewrite <- E.
  - simpl. intros [H | H].
    + rewrite H, String.eqb_refl in E. discriminate E.
    + now apply IH.
Qed.

Lemma updateAt_nth_same (f : Player -> Player) (ps : list Player) (i : nat)
  (p : Player) :
  nth_error ps i = Some p -> nth_error (updateAt i f ps) i = Some (f p).
Proof.
  revert i. induction ps as [|q ps IH]; intros [|i] H; simpl in *;
    try discriminate H.
  - now inversion H.
  - now apply IH.
Qed.

Lemma updateAt_nth_other (f : Player -> Player) (ps : list Player)
  (i j : nat) :
  j <> i -> nth_error (updateAt i f ps) j = nth_error ps j.
Proof.
  revert i j. induction ps as [|q ps IH]; intros [|i] [|j] H; simpl;
    try reflexivity.
  - now elim H.
  - apply IH. intros E. apply H. now subst.
Qed.

Lemma userSeat_inv g u i p :
  userSeat g u = Some (i, p) ->
  mapGet u (userPlayer g) = Some (Some i) /\ nth_error (players g) i = Some p.
Proof.
  unfold userSeat.
  destruct (mapGet u (userPlayer g)) as [[j|]|]; try discriminate.
  destruct (nth_error (players g) j) as [q|] eqn:E; [| discriminate].
  intros H. inversion H; subst. now split.
Qed.

(** C5: [burnOneHandCardAction] throws, changing nothing, on an empty burn
    pile.  On a non-empty one, for a seated user naming a card of the hand:
    with equal ranks the game returned has the hand card on top of the burn
    pile and the user's hand without it; with different ranks it has the
    burn pile without its top card and the user's hand with that card added,
    the named card still in it.  Every other hand is as before and the
    phase is [EndRound] in both cases. *)
Theorem burn_legality self g u id i p card topCard rest :
  burnedCards g = topCard :: rest ->
  userSeat g u = Some (i, p) ->
  getCard p id = Some card ->
  (forall g0, burnedCards g0 = [] ->
     burnOneHandCardAction self g0 u id
       = Threw (InvalidAction "Burned cards stack is empty") g0) /\
  (rank card = rank topCard ->
     let hand' := CardHand.remove card (handCards p) in
     exists g',
       burnOneHandCardAction self g u id = Done g' /\
       g' = with_state
              (with_burnedCards (setHand g i hand')
                 (card :: topCard :: rest)) EndRound /\
       userSeat g' u = Some (i, mkPlayer hand') /\
       (forall j, j <> i ->
          nth_error (players g') j = nth_error (players g) j) /\
       burnedCards g' = card :: topCard :: rest /\
       state g' = EndRound /\
       S (List.length hand') = List.length (handCards p) /\
       (NoDup (map cid (handCards p)) -> ~ In (cid card) (map cid hand'))) /\
  (rank card <> rank topCard ->
     let hand' := handCards p ++ [topCard] in
     exists g',
       burnOneHandCardAction self g u id = Done g' /\
       g' = with_state (setHand (with_burnedCards g rest) i hand')
              EndRound /\
       userSeat g' u = Some (i, mkPlayer hand') /\
       (forall j, j <> i ->
          nth_error (players g') j = nth_error (players g) j) /\
       burnedCards g' = rest /\
       state g' = EndRound /\
       In card hand' /\ In topCard hand').
Proof.
  intros Hb Hu Hc.
  destruct (getCard_In _ _ _ Hc) as [Hin _].
  destruct (userSeat_inv _ _ _ _ Hu) as [Hm Hn].
  split; [| split].
  - intros g0 H0. unfold burnOneHandCardAction. now rewrite H0.
  - intros Hr hand'. eexists. split; [| split; [reflexivity |]].
    + unfold burnOneHandCardAction. rewrite Hb. simpl.
      rewrite Hu, Hc. unfold equalsRank. rewrite Hr, Nat.eqb_refl.
      simpl. now rewrite Hb.
    + split.
      { unfold userSeat. fields. rewrite Hm.
        now rewrite (updateAt_nth_same _ _ _ _ Hn). }
      split; [intros j Hj; fields; now apply updateAt_nth_other |].
      split; [reflexivity |]. split; [reflexivity |].
      split; [now apply remove_length | now apply remove_gone].
  - intros Hr hand'. eexists. split; [| split; [reflexivity |]].
    + unfold burnOneHandCardAction. rewrite Hb. simpl.
      rewrite Hu, Hc. unfold equalsRank.
      apply Nat.eqb_neq in Hr. now rewrite Hr.
    + split.
      { unfold userSeat. fields. rewrite Hm.
        now rewrite (updateAt_nth_same _ _ _ _ Hn). }
      split; [intros j Hj; fields; now apply updateAt_nth_other |].
      split; [reflexivity |]. split; [reflexivity |].
      split; apply in_or_app; [now left | right; now left].
Qed.

(** ** Phase gating *)

(** In phase [Burn] an action that passed the validator and is delegated to
    the phase never returns: every code but [BURN_CARD] gets the "not
    allowed in current state" error, and [BURN_CARD] the [TypeError] of the
    missing [burnAction]; the game is unchanged in both cases. *)
Lemma Burn_phase_outcome rnd ER g a payload :
  state g = Burn ->
  validateUsingActionBased g a (payloadUserId payload) = Some true ->
  a <> Action.JOIN_AS_PLAYER ->
  (a <> Action.BURN_CARD ->
     doAction rnd ER g a payload = Threw (InvalidAction defaultMessage) g) /\
  (a = Action.BURN_CARD ->
     doAction rnd ER g a payload = Threw TypeError g).
Proof.
  intros Hs Hv Hj.
  assert (E : doAction rnd ER g a payload =
              Burn_action g a payload).
  { rewrite doAction_unfold. unfold action_body. rewrite Hv.
    unfold state_action. rewrite Hs.
    destruct a; try reflexivity; try (now elim Hj);
      destruct payload; reflexivity. }
  split.
  - intros Hb. rewrite E. destruct a; try reflexivity. now elim Hb.
  - intros ->. now rewrite E.
Qed.

(** ** Witnesses on the concrete game *)

Lemma unauthorized_action_rejected_witness :
  (exists e, play started3 Action.PICK_CARD_FROM_PILE (asUser 2)
             = Threw e started3) /\
  (exists e, play started3 Action.RESTART (asUser 2) = Threw e started3).
Proof.
  split.
  - apply (unauthorized_action_rejected fixedRandom closedEndRound started3
             Action.PICK_CARD_FROM_PILE (asUser 2)).
    left. split; [simpl; auto 10 | vm_compute; discriminate].
  - apply (unauthorized_action_rejected fixedRandom closedEndRound started3
             Action.RESTART (asUser 2)).
    right. split; [simpl; auto | vm_compute; reflexivity].
Defined.


Lemma exchange_changes_phase_only_witness :
  exchangePickWithHandAction (fun g _ _ => Done g) picked3 (num 1)
    (Some "AA"%string) = Done (with_state picked3 Burn) /\
  players (with_state picked3 Burn) = players picked3 /\
  pickedCard (with_state picked3 Burn) = pickedCard picked3.
Proof.
  split; [vm_compute; reflexivity |].
  destruct (exchange_changes_phase_only (fun g _ _ => Done g) picked3 (num 1)
              (Some "AA"%string) undefined None (with_state picked3 Burn))
    as (_ & Hp & Hc & _).
  - left. vm_compute. reflexivity.
  - split; assumption.
Defined.

Lemma burn_legality_witness :
  exists g',
    burnOneHandCardAction (fun g _ _ => Done g) burnReady (num 1)
      (Some "AA"%string) = Done g' /\
    userSeat g' (num 1)
      = Some (0, mkPlayer [plainCard 0 1; plainCard 0 2; plainCard 0 3]) /\
    burnedCards g' = [plainCard 0 0; plainCard 1 0] /\
    state g' = EndRound.
Proof.
  destruct (burn_legality (fun g _ _ => Done g) burnReady (num 1)
              (Some "AA"%string) 0
              (mkPlayer [plainCard 0 0; plainCard 0 1; plainCard 0 2;
                         plainCard 0 3])
              (plainCard 0 0) (plainCard 1 0) [])
    as (_ & Heq & _); try (vm_compute; reflexivity).
  destruct (Heq eq_refl) as (g' & E & _ & Hu & _ & Hb & Hs & _).
  exists g'. repeat split; assumption.
Defined.


(** ** Joining *)

(** C7: the join of a second user to a seat that already has one is
    accepted: [isValidPlayer] only checks the range of the index, although
    the error it guards reads "Invalid position or already taken". *)
Theorem join_accepts_taken_seat :
  userPlayer seated1 = [(num 1, Some 0)] /\
  exists g2,
    play seated1 Action.JOIN_AS_PLAYER (joinAt 2 0) = Done g2 /\
    userPlayer g2 = [(num 1, Some 0); (num 2, Some 0)] /\
    leader g2 = num 1.
Proof.
  split; [vm_compute; reflexivity |].
  eexists. split; [vm_compute; reflexivity |].
  split; vm_compute; reflexivity.
Qed.

(** The three checks [joinAsPlayerAction] does make reject without a
    change, and a join that returns sets the leader exactly when nobody had
    joined before. *)
Lemma join_checks_and_leader g u pid :
  (isJoinedAsPlayer g u = true \/ isValidPlayer g pid = false \/
   isFull g = true ->
   exists e, joinAsPlayerAction g u pid = Threw e g) /\
  (forall g', joinAsPlayerAction g u pid = Done g' ->
     leader g' = if Nat.eqb (numberOfPlayers g) 0 then u else leader g).
Proof.
  unfold joinAsPlayerAction. split.
  - intros H.
    destruct (isJoinedAsPlayer g u); [eauto |].
    destruct (isValidPlayer g pid); cbn [negb]; [| eauto].
    destruct (isFull g); [eauto |].
    decompose [or] H; discriminate.
  - intros g'.
    destruct (isJoinedAsPlayer g u); [discriminate |].
    destruct (negb (isValidPlayer g pid)); [discriminate |].
    destruct (isFull g); [discriminate |].
    intros H. inversion H.
    now destruct (Nat.eqb (numberOfPlayers g) 0).
Qed.

(** ** Using an ability *)

(** C2: with a picked card whose ability tag is none of the four known
    ones, [USE_ABILITY] throws "Unknown ability" after [markAsUsed] has
    already run: the game after the throw is not the game before it. *)
Theorem use_ability_marks_before_throwing :
  exists g',
    play oddPicked Action.USE_ABILITY (asUser 1)
      = Threw (InvalidAction "Unknown ability") g' /\
    pickedCard oddPicked = Some oddCard /\
    pickedCard g' = Some (markAsUsed oddCard) /\
    g' <> oddPicked.
Proof.
  eexists. split; [vm_compute; reflexivity |].
  split; [vm_compute; reflexivity |].
  split; [vm_compute; reflexivity |].
  intros H. apply (f_equal pickedCard) in H. vm_compute in H.
  discriminate H.
Qed.

(** ** Dealing *)

Lemma game_eta (g : Game) :
  mkGame (players g) (deck g) (burnedCards g) (pileOfCards g) (passedBy g)
    (turn g) (state g) (maxNumberOfPlayers g) (isGameStarted g)
    (pickedCard g) (leader g) (userPlayer g) = g.
Proof. now destruct g. Qed.

Lemma updateAt_ext (f f' : Player -> Player) (i : nat) (l : list Player) :
  (forall p, f p = f' p) -> updateAt i f l = updateAt i f' l.
Proof.
  intros H. revert i.
  induction l as [|p l IH]; intros [|i]; simpl; try reflexivity.
  - now rewrite H.
  - now rewrite IH.
Qed.

Lemma updateAt_id (f : Player -> Player) (i : nat) (l : list Player) :
  (forall p, f p = p) -> updateAt i f l = l.
Proof.
  intros H. revert i.
  induction l as [|p l IH]; intros [|i]; simpl; try reflexivity.
  - now rewrite H.
  - now rewrite IH.
Qed.

Lemma updateAt_twice (f h : Player -> Player) (i : nat) (l : list Player) :
  updateAt i f (updateAt i h l) = updateAt i (fun p => f (h p)) l.
Proof.
  revert i.
  induction l as [|p l IH]; intros [|i]; simpl; try reflexivity.
  now rewrite IH.
Qed.

Lemma updateAt_length (f : Player -> Player) (i : nat) (l : list Player) :
  List.length (updateAt i f l) = List.length l.
Proof.
  revert i.
  induction l as [|p l IH]; intros [|i]; simpl; try reflexivity.
  now rewrite IH.
Qed.

Lemma updateAt_middle (f : Player -> Player) (pre post : list Player)
  (p : Player) :
  updateAt (List.length pre) f (pre ++ p :: post) = pre ++ f p :: post.
Proof.
  induction pre as [|q pre IH]; simpl; [reflexivity |]. now rewrite IH.
Qed.

Lemma dealHand_enough (n i : nat) (g : Game) :
  n <= List.length (deck g) ->
  dealHand n i g =
  Done (with_players (with_deck g (skipn n (deck g)))
          (updateAt i (fun p => mkPlayer (handCards p ++ firstn n (deck g)))
             (players g))).
Proof.
  revert g. induction n as [|n IH]; intros g Hn.
  - simpl. unfold with_players, with_deck. simpl.
    rewrite updateAt_id.
    + now rewrite game_eta.
    + intros [h]. simpl. now rewrite app_nil_r.
  - simpl. destruct (deck g) as [|c d] eqn:Ed; simpl in Hn; [lia |].
    simpl. rewrite IH by (simpl; lia).
    simpl. rewrite updateAt_twice. f_equal.
    unfold with_players, with_deck. simpl. f_equal.
    apply updateAt_ext. intros [h]. unfold addCardToHand, CardHand.add.
    simpl. now rewrite <- app_assoc.
Qed.

Lemma forEachSeat_deal (post pre : list Player) (g : Game) :
  players g = pre ++ post ->
  4 * List.length post <= List.length (deck g) ->
  forEachSeat (seq (List.length pre) (List.length post)) (dealHand 4) g =
  Done (with_players (with_deck g (skipn (4 * List.length post) (deck g)))
          (pre ++ dealAll (deck g) post)).
Proof.
  revert pre g. induction post as [|p post IH]; intros pre g Hp Hd.
  - simpl. unfold with_players, with_deck. simpl.
    now rewrite <- Hp, game_eta.
  - cbn [List.length seq forEachSeat]. cbn [List.length] in Hd.
    rewrite dealHand_enough by lia. cbn [andThen].
    rewrite Hp, updateAt_middle.
    set (p' := mkPlayer (handCards p ++ firstn 4 (deck g))).
    set (g1 := with_players (with_deck g (skipn 4 (deck g)))
                 (pre ++ p' :: post)).
    assert (Hl : S (List.length pre) = List.length (pre ++ [p'])).
    { rewrite length_app. simpl. lia. }
    rewrite Hl.
    rewrite (IH (pre ++ [p']) g1).
    + f_equal. unfold g1. fields.
      rewrite skipn_skipn, <- app_assoc. cbn [app dealAll].
      replace (4 * List.length post + 4) with (4 * S (List.length post))
        by lia.
      reflexivity.
    + unfold g1. fields. now rewrite <- app_assoc.
    + unfold g1. fields. rewrite length_skipn. lia.
Qed.

Lemma moveDeckToPile_rev (d : Deck.t) (pile : CardStack.t) :
  moveDeckToPile d pile = rev d ++ pile.
Proof.
  revert pile. induction d as [|c d IH]; intros pile; simpl; [reflexivity |].
  rewrite IH. unfold CardStack.put. now rewrite <- app_assoc.
Qed.

Lemma dealAll_nth (ps : list Player) (d : list Card) (i : nat) (p : Player) :
  nth_error ps i = Some p ->
  nth_error (dealAll d ps) i =
  Some (mkPlayer (handCards p ++ firstn 4 (skipn (4 * i) d))).
Proof.
  revert d i. induction ps as [|q ps IH]; intros d [|i] H; simpl in H;
    try discriminate H.
  - inversion H. reflexivity.
  - cbn [dealAll nth_error]. rewrite (IH _ _ H). rewrite skipn_skipn.
    replace (4 * i + 4) with (4 * S i) by lia. reflexivity.
Qed.

Lemma dealAll_length (ps : list Player) (d : list Card) :
  List.length (dealAll d ps) = List.length ps.
Proof.
  revert d. induction ps as [|q ps IH]; intros d; simpl; [reflexivity |].
  now rewrite IH.
Qed.

Lemma distributeCardsAction_enough (g : Game) :
  4 * List.length (players g) <= List.length (deck g) ->
  distributeCardsAction g =
  Done (with_pileOfCards
          (with_deck (with_players g (dealAll (deck g) (players g))) [])
          (rev (skipn (4 * List.length (players g)) (deck g))
             ++ pileOfCards g)).
Proof.
  intros H. unfold distributeCardsAction, DEFAULT_NUMBER_OF_CARDS_PER_HAND.
  change (seq 0 (List.length (players g)))
    with (seq (List.length (@nil Player)) (List.length (players g))).
  rewrite (forEachSeat_deal (players g) [] g eq_refl H).
  cbn [andThen]. rewrite moveDeckToPile_rev. reflexivity.
Qed.

(** C8, amended: when the deck holds enough cards, the start-of-round deal
    gives every seat of the seat array, whether a user sits on it or not,
    the next four deck cards in seat order (seat [i] gets deck cards [4i]
    to [4i+3]); every remaining deck card goes to the draw pile, the deck is
    left empty and the phase becomes [PickBurn]. *)
Theorem deal_every_seat self g :
  4 * List.length (players g) <= List.length (deck g) ->
  exists g',
    startRoundAction self g = Done g' /\
    (forall i p, nth_error (players g) i = Some p ->
       nth_error (players g') i =
       Some (mkPlayer (handCards p ++ firstn 4 (skipn (4 * i) (deck g))))) /\
    List.length (players g') = List.length (players g) /\
    deck g' = [] /\
    pileOfCards g' =
      rev (skipn (4 * List.length (players g)) (deck g)) ++ pileOfCards g /\
    state g' = PickBurn /\
    burnedCards g' = burnedCards g /\
    pickedCard g' = pickedCard g /\
    userPlayer g' = userPlayer g.
Proof.
  intros H. unfold startRoundAction.
  rewrite (distributeCardsAction_enough g H). cbn [andThen].
  unfold showTwoHandCardsAction. rewrite setState_plain by discriminate.
  eexists. split; [reflexivity |]. simpl.
  split; [intros i p Hp; now apply dealAll_nth |].
  split; [apply dealAll_length |].
  repeat split; reflexivity.
Qed.

Lemma deal_every_seat_witness :
  exists g',
    startRoundAction (fun g _ _ => Done g) (with_state seated1 RoundStart)
      = Done g' /\
    deck g' = [] /\
    state g' = PickBurn.
Proof.
  destruct (deal_every_seat (fun g _ _ => Done g)
              (with_state seated1 RoundStart))
    as (g' & E & _ & _ & Hd & _ & Hs & _).
  - vm_compute. lia.
  - exists g'. repeat split; assumption.
Defined.

(** C8 as stated fails: started with one user on seat 0 and seats 1 and 2
    vacant, the deal still gives four cards to the two vacant seats. *)
Lemma deal_reaches_vacant_seats :
  exists g',
    play seated1 Action.START_GAME (asUser 1) = Done g' /\
    seatTaken seated1 1 = false /\
    ~ dealsOnlyToSeated seated1 g'.
Proof.
  eexists. split; [vm_compute; reflexivity |].
  split; [vm_compute; reflexivity |].
  intros H.
  specialize (H 1 newPlayer
                (mkPlayer [plainCard 0 4; plainCard 0 5; plainCard 0 6;
                           plainCard 0 7])).
  assert (C : handCards (mkPlayer [plainCard 0 4; plainCard 0 5;
                                    plainCard 0 6; plainCard 0 7])
              = handCards newPlayer).
  { apply H; vm_compute; reflexivity. }
  discriminate C.
Qed.

(** ** Card conservation *)

Lemma fixedRandom_fair : fairRandom fixedRandom.
Proof.
  split.
  - intros l. apply Permutation_refl.
  - intros n Hn. exact Hn.
Qed.

Lemma handIds_updateAt_add (c : Card) (i : nat) (ps : list Player) :
  i < List.length ps ->
  Permutation (handIds (updateAt i (addCardToHand c) ps))
    (cid c :: handIds ps).
Proof.
  revert i. induction ps as [|p ps IH]; intros i Hi; simpl in Hi; [lia |].
  destruct i as [|i]; unfold handIds in *; simpl.
  - unfold CardHand.add. rewrite map_app. simpl.
    rewrite <- app_assoc. simpl. now rewrite <- Permutation_middle.
  - rewrite IH by lia. now rewrite <- Permutation_middle.
Qed.

Lemma sameCards_refl (g : Game) : sameCards g g.
Proof. split; reflexivity. Qed.

Lemma sameCards_trans (g1 g2 g3 : Game) :
  sameCards g1 g2 -> sameCards g2 g3 -> sameCards g1 g3.
Proof.
  intros [A1 A2 A3 A4 A5] [B1 B2 B3 B4 B5]. split.
  - now rewrite B1.
  - now rewrite B2.
  - now rewrite B3.
  - now rewrite B4.
  - now rewrite B5.
Qed.

Lemma dealHand_sameCards (n i : nat) (g : Game) :
  i < List.length (players g) ->
  sameCards g (stateAfter (dealHand n i g)).
Proof.
  revert g. induction n as [|n IH]; intros g Hi; simpl.
  - apply sameCards_refl.
  - destruct (deck g) as [|c d] eqn:Ed; simpl; [apply sameCards_refl |].
    eapply sameCards_trans; [| apply IH].
    + split; try reflexivity.
      * unfold heldIds, containerIds, pickedIds. fields.
        rewrite Ed, handIds_updateAt_add by assumption.
        cbn [map app]. now rewrite <- !Permutation_middle.
      * fields. apply updateAt_length.
    + fields. now rewrite updateAt_length.
Qed.

Lemma forEachSeat_sameCards (seats : list nat) (n : nat) (g : Game) :
  (forall i, In i seats -> i < List.length (players g)) ->
  sameCards g (stateAfter (forEachSeat seats (dealHand n) g)).
Proof.
  revert g. induction seats as [|i seats IH]; intros g Hs; simpl.
  - apply sameCards_refl.
  - pose proof (dealHand_sameCards n i g (Hs i (or_introl eq_refl))) as H1.
    destruct (dealHand n i g) as [g1 | e g1]; simpl in *; [| exact H1].
    eapply sameCards_trans; [exact H1 |]. apply IH.
    intros j Hj. rewrite (same_seats _ _ H1). apply Hs. now right.
Qed.

Lemma distributeCardsAction_sameCards (g : Game) :
  sameCards g (stateAfter (distributeCardsAction g)).
Proof.
  unfold distributeCardsAction.
  pose proof (forEachSeat_sameCards (seq 0 (List.length (players g)))
                DEFAULT_NUMBER_OF_CARDS_PER_HAND g) as H1.
  assert (Hs : forall i, In i (seq 0 (List.length (players g))) ->
                         i < List.length (players g)).
  { intros i Hi. apply in_seq in Hi. lia. }
  specialize (H1 Hs).
  destruct (forEachSeat _ _ g) as [g1 | e g1]; simpl in *; [| exact H1].
  eapply sameCards_trans; [exact H1 |].
  split; try reflexivity.
  unfold heldIds, containerIds, pickedIds. fields.
  rewrite moveDeckToPile_rev, map_app, map_rev, <- Permutation_rev.
  cbn [map app]. now rewrite <- !app_assoc.
Qed.

Lemma invariant_sameCards cards (g g' : Game) :
  invariant cards g -> sameCards g g' -> invariant cards g'.
Proof.
  intros [I1 I2 I3 I4] [S1 S2 S3 S4 S5]. split.
  - now rewrite S1.
  - now rewrite S2.
  - rewrite S3, S4. exact I3.
  - now rewrite S4.
Qed.

(** A change of phase alone keeps the invariant, when the new phase is one
    in which a picked card may be held, or none is held. *)
Lemma invariant_with_state cards (g : Game) (s : State) :
  invariant cards g ->
  s <> EndRound ->
  (s = BeginOfGame \/ s = RoundStart \/ s = PickBurn -> pickedCard g = None) ->
  invariant cards (with_state g s).
Proof.
  intros [I1 I2 I3 I4] Hs Hp. split; fields; assumption.
Qed.

Ltac phase_goal :=
  match goal with
  | |- _ <> _ => discriminate
  | |- _ \/ _ -> _ =>
      let H := fresh in
      intros H; decompose [or] H; discriminate
  end.

Section Preservation.

Variable cards : list Card.
Variable self : Game -> Action.t -> option UserActionPayload -> Outcome.
Variable rnd : Random.
Variable ER : Game -> Action.t -> option UserActionPayload -> Outcome.

Hypothesis self_preserves : preserves cards self.
Hypothesis rnd_fair : fairRandom rnd.

Lemma joinAsPlayerAction_inv g u pid :
  invariant cards g ->
  invariant cards (stateAfter (joinAsPlayerAction g u pid)).
Proof.
  intros I. unfold joinAsPlayerAction.
  destruct (isJoinedAsPlayer g u); [exact I |].
  destruct (negb (isValidPlayer g pid)); [exact I |].
  destruct (isFull g); [exact I |].
  assert (I1 : invariant cards
                 (if Nat.eqb (numberOfPlayers g) 0 then setLeader g u else g)).
  { destruct (Nat.eqb (numberOfPlayers g) 0); [| exact I].
    destruct I as [I1 I2 I3 I4]. split; assumption. }
  cbn [stateAfter].
  destruct I1 as [J1 J2 J3 J4]. split; assumption.
Qed.

Lemma startGameAction_inv g :
  state g = BeginOfGame ->
  invariant cards g ->
  invariant cards (stateAfter (startGameAction self rnd g)).
Proof.
  intros Hs I. unfold startGameAction.
  destruct (isGameStarted g); [exact I |].
  cbn [setState]. apply self_preserves.
  destruct I as [I1 I2 I3 I4]. split; fields.
  - rewrite <- I1. unfold heldIds, containerIds, pickedIds,
      selectFirstTurnAction. fields.
    apply Permutation_app; [| reflexivity].
    apply Permutation_app; [| reflexivity].
    apply Permutation_map. apply rnd_fair.
  - exact I2.
  - intros _. apply I3. now left.
  - discriminate.
Qed.

Lemma startRoundAction_inv g :
  state g = RoundStart ->
  invariant cards g ->
  invariant cards (stateAfter (startRoundAction self g)).
Proof.
  intros Hs I. unfold startRoundAction.
  pose proof (distributeCardsAction_sameCards g) as S.
  pose proof (invariant_sameCards cards _ _ I S) as I'.
  destruct (distributeCardsAction g) as [g1 | e g1]; cbn [andThen stateAfter] in *;
    [| exact I'].
  unfold showTwoHandCardsAction. rewrite setState_plain by discriminate.
  cbn [stateAfter]. apply invariant_with_state; [exact I' | discriminate |].
  intros _. rewrite (same_picked _ _ S). apply I. now right; left.
Qed.

Lemma pickCardFromPileAction_inv g :
  state g = PickBurn ->
  invariant cards g ->
  invariant cards (stateAfter (pickCardFromPileAction self g)).
Proof.
  intros Hs I. rewrite pickCardFromPileAction_eq.
  destruct (pileOfCards g) as [|c rest] eqn:Ep; [exact I |].
  cbn [stateAfter].
  pose proof (inv_picked _ _ I (or_intror (or_intror Hs))) as Hn.
  destruct I as [I1 I2 I3 I4]. split; fields.
  - rewrite <- I1. unfold heldIds, containerIds, pickedIds. fields.
    rewrite Ep, Hn. cbn [map app].
    now rewrite <- !Permutation_middle.
  - exact I2.
  - phase_goal.
  - discriminate.
Qed.

Lemma pickCardFromBurnedAction_inv g :
  invariant cards g ->
  invariant cards (stateAfter (pickCardFromBurnedAction self g)).
Proof.
  intros I. rewrite pickCardFromBurnedAction_eq.
  now rewrite (inv_burned _ _ I).
Qed.

Lemma useAbilityAction_inv g :
  state g = PilePicked \/ state g = BurnedPicked ->
  invariant cards g ->
  invariant cards (stateAfter (useAbilityAction self g)).
Proof.
  intros Hs I. unfold useAbilityAction.
  destruct (pickedCard g) as [c|] eqn:Ec; [| exact I].
  assert (I1 : invariant cards (with_pickedCard g (Some (markAsUsed c)))).
  { destruct I as [I1 I2 I3 I4]. split; fields.
    - rewrite <- I1. unfold heldIds, containerIds, pickedIds. fields.
      now rewrite Ec.
    - exact I2.
    - intros H. destruct Hs as [Hs | Hs]; rewrite Hs in H;
        decompose [or] H; discriminate.
    - exact I4. }
  destruct (getAbility c);
    try (rewrite setState_plain by discriminate; cbn [stateAfter];
         apply invariant_with_state; [exact I1 | discriminate | phase_goal]).
  exact I1.
Qed.

Lemma to_Burn_inv g (o : Outcome) :
  invariant cards g ->
  (o = Done (with_state g Burn) \/ exists e, o = Threw e g) ->
  invariant cards (stateAfter o).
Proof.
  intros I [-> | [e ->]]; cbn [stateAfter]; [| exact I].
  apply invariant_with_state; [exact I | discriminate | phase_goal].
Qed.

Lemma exchangeHandWithOther_inv g u id other otherId :
  invariant cards g ->
  invariant cards
    (stateAfter (exchangeHandWithOther self g u id other otherId)).
Proof.
  intros I. apply (to_Burn_inv g); [exact I |]. unfold exchangeHandWithOther.
  destruct (isValidPlayer g other); [| right; eauto].
  destruct (sameSeat (userSeat g u) (seatAt g other)); [right; eauto |].
  destruct (userSeat g u) as [[i p]|]; [| right; eauto].
  destruct (seatAt g other) as [[j q]|]; [| right; eauto].
  now left.
Qed.

Lemma showOneHandCardAction_inv g u id :
  invariant cards g ->
  invariant cards (stateAfter (showOneHandCardAction self g u id)).
Proof.
  intros I. apply (to_Burn_inv g); [exact I |]. unfold showOneHandCardAction.
  destruct (userSeat g u) as [[i p]|]; [now left | right; eauto].
Qed.

Lemma showOneOtherHandCardAction_inv g u other otherId :
  invariant cards g ->
  invariant cards
    (stateAfter (showOneOtherHandCardAction self g u other otherId)).
Proof.
  intros I. apply (to_Burn_inv g); [exact I |].
  unfold showOneOtherHandCardAction.
  destruct (isValidPlayer g other); [| right; eauto].
  destruct (seatAt g other) as [[j q]|]; [now left | right; eauto].
Qed.

Lemma state_action_inv g a payload :
  invariant cards g ->
  invariant cards (stateAfter (state_action self rnd ER g a payload)).
Proof.
  intros I. unfold state_action.
  destruct (state g) eqn:Hs.
  - destruct a; try exact I. now apply startGameAction_inv.
  - destruct a; try exact I. now apply startRoundAction_inv.
  - destruct a; try exact I.
    + now apply pickCardFromPileAction_inv.
    + now apply pickCardFromBurnedAction_inv.
  - destruct a; try exact I. apply useAbilityAction_inv; auto.
  - destruct a; try exact I. apply useAbilityAction_inv; auto.
  - destruct a, payload; try exact I. now apply exchangeHandWithOther_inv.
  - destruct a, payload; try exact I. now apply showOneHandCardAction_inv.
  - destruct a, payload; try exact I.
    now apply showOneOtherHandCardAction_inv.
  - destruct a; exact I.
  - now elim (inv_phase _ _ I).
  - exact I.
Qed.

Lemma action_body_inv : preserves cards (action_body self rnd ER).
Proof.
  intros g a payload I. unfold action_body.
  destruct (validateUsingActionBased g a (payloadUserId payload))
    as [[|]|]; try exact I.
  destruct a; try (now apply state_action_inv).
  destruct payload as [q|]; [| exact I].
  now apply joinAsPlayerAction_inv.
Qed.

End Preservation.

Lemma action_inv cards rnd ER (depth : nat) :
  fairRandom rnd -> preserves cards (action rnd ER depth).
Proof.
  intros Hf. induction depth as [|d IH].
  - intros g a payload I. exact I.
  - intros g a payload I. cbn [action].
    now apply action_body_inv.
Qed.

Lemma newGame_invariant cards n g :
  newGame cards n BeginOfGame = Some g -> invariant cards g.
Proof.
  unfold newGame. destruct (isValidMaxNumberOfPlayers n); [| discriminate].
  intros H. inversion H. split; fields; try reflexivity; try discriminate.
  unfold heldIds, containerIds, pickedIds. fields.
  assert (E : forall k, handIds (repeat newPlayer k) = []).
  { induction k as [|k IHk]; [reflexivity | exact IHk]. }
  rewrite E. cbn [map app CardStack.empty]. now rewrite !app_nil_r.
Qed.

Lemma reachable_invariant cards n g :
  reachable cards n g -> invariant cards g.
Proof.
  induction 1 as [g H | g rnd ER a payload _ IH Hf].
  - now apply (newGame_invariant cards n).
  - now apply action_inv.
Qed.

(** C1, amended: in every state a game can be in after any sequence of
    [doAction] calls, the cards of the deck, the draw pile, the burn pile and
    all hands, together with the picked card while one is in flight, are
    the configured card set: each id once, none missing. *)
Theorem cards_conserved_with_picked cards n g :
  reachable cards n g ->
  Permutation (heldIds g) (map cid cards) /\
  (NoDup (map cid cards) -> NoDup (heldIds g)).
Proof.
  intros H. pose proof (inv_cards _ _ (reachable_invariant cards n g H)) as P.
  split; [exact P |].
  intros Hn. apply (Permutation_NoDup (Permutation_sym P) Hn).
Qed.

Lemma picked3_reachable : reachable standardCards 3 picked3.
Proof.
  unfold picked3, started3, play.
  apply reach_call; [| exact fixedRandom_fair].
  apply reach_call; [| exact fixedRandom_fair].
  replace seated3 with
    (stateAfter (doAction fixedRandom closedEndRound
       (stateAfter (doAction fixedRandom closedEndRound
          (stateAfter (doAction fixedRandom closedEndRound
             (fresh standardCards 3) Action.JOIN_AS_PLAYER (joinAt 1 0)))
          Action.JOIN_AS_PLAYER (joinAt 2 1)))
       Action.JOIN_AS_PLAYER (joinAt 3 2)))
    by (vm_compute; reflexivity).
  do 3 (apply reach_call; [| exact fixedRandom_fair]).
  apply reach_new. vm_compute. reflexivity.
Qed.

Lemma cards_conserved_with_picked_witness :
  Permutation (heldIds picked3) (map cid standardCards) /\
  (NoDup (map cid standardCards) -> NoDup (heldIds picked3)).
Proof.
  apply (cards_conserved_with_picked standardCards 3 picked3).
  exact picked3_reachable.
Defined.

(** C1 as stated fails: after three joins, the leader's start and an
    accepted pick by the user whose turn it is, the picked card is in none
    of the deck, the draw pile, the burn pile and the hands, which together
    hold 51 of the 52 cards. *)
Lemma picked_card_leaves_containers :
  play seated3 Action.START_GAME (asUser 1) = Done started3 /\
  play started3 Action.PICK_CARD_FROM_PILE (asUser 1) = Done picked3 /\
  reachable standardCards 3 picked3 /\
  pickedCard picked3 = Some (plainCard 3 12) /\
  ~ In (cid (plainCard 3 12)) (containerIds picked3) /\
  ~ Permutation (containerIds picked3) (map cid standardCards).
Proof.
  split; [vm_compute; reflexivity |].
  split; [vm_compute; reflexivity |].
  split; [exact picked3_reachable |].
  split; [vm_compute; reflexivity |].
  split.
  - vm_compute. intros H. decompose [or] H; try discriminate; assumption.
  - intros H. apply Permutation_length in H. vm_compute in H.
    discriminate H.
Qed.

(** ** The bound on re-entrant calls is never reached *)

Section SelfIrrelevance.

Variables self1 self2 :
  Game -> Action.t -> option UserActionPayload -> Outcome.
Variable rnd : Random.
Variable ER : Game -> Action.t -> option UserActionPayload -> Outcome.

Lemma setState_self g s :
  s <> RoundStart -> setState self1 g s = setState self2 g s.
Proof. intros H. now rewrite !setState_plain. Qed.

Lemma startRoundAction_self g :
  startRoundAction self1 g = startRoundAction self2 g.
Proof.
  unfold startRoundAction. destruct (distributeCardsAction g); [| reflexivity].
  cbn [andThen]. now apply setState_self.
Qed.

Lemma roundStart_call_self g :
  state g = RoundStart ->
  action_body self1 rnd ER g Action.START_ROUND None =
  action_body self2 rnd ER g Action.START_ROUND None.
Proof.
  intros Hs. unfold action_body. cbn.
  unfold state_action. rewrite Hs. cbn [RoundStart_action].
  apply startRoundAction_self.
Qed.

Hypothesis selves_agree :
  forall g, state g = RoundStart ->
            self1 g Action.START_ROUND None = self2 g Action.START_ROUND None.

Lemma startGameAction_self g :
  startGameAction self1 rnd g = startGameAction self2 rnd g.
Proof.
  unfold startGameAction. destruct (isGameStarted g); [reflexivity |].
  cbn [setState]. now apply selves_agree.
Qed.

Lemma state_action_self g a payload :
  state_action self1 rnd ER g a payload =
  state_action self2 rnd ER g a payload.
Proof.
  unfold state_action.
  destruct (state g); destruct a; try reflexivity.
  apply startGameAction_self.
Qed.

Lemma action_body_self g a payload :
  action_body self1 rnd ER g a payload =
  action_body self2 rnd ER g a payload.
Proof.
  unfold action_body.
  destruct (validateUsingActionBased g a (payloadUserId payload))
    as [[|]|]; try reflexivity.
  destruct a; try apply state_action_self.
  destruct payload; reflexivity.
Qed.

End SelfIrrelevance.

(** Any bound of at least two gives what [doAction] gives. *)
Lemma action_depth rnd ER (d : nat) g a payload :
  action rnd ER (S (S d)) g a payload = doAction rnd ER g a payload.
Proof.
  unfold doAction. cbn [action].
  apply action_body_self.
  intros g' Hs. destruct d as [|d]; [reflexivity |].
  cbn [action]. now apply roundStart_call_self.
Qed.

(** ** Where a throw leaves the game *)

Lemma dealHand_throws (n i : nat) (g : Game) e g' :
  dealHand n i g = Threw e g' -> e = OutOfCards.
Proof.
  revert g. induction n as [|n IH]; intros g; simpl; [discriminate |].
  destruct (Deck.pop (deck g)) as [[c d]|].
  - apply IH.
  - intros H. now inversion H.
Qed.

Lemma forEachSeat_throws (seats : list nat) (n : nat) (g : Game) e g' :
  forEachSeat seats (dealHand n) g = Threw e g' -> e = OutOfCards.
Proof.
  revert g. induction seats as [|i seats IH]; intros g; simpl;
    [discriminate |].
  destruct (dealHand n i g) as [g1 | e1 g1] eqn:E; cbn [andThen].
  - apply IH.
  - intros H. inversion H; subst. now apply dealHand_throws in E.
Qed.

Lemma startRoundAction_throws self g e g' :
  startRoundAction self g = Threw e g' -> e = OutOfCards.
Proof.
  unfold startRoundAction, distributeCardsAction.
  destruct (forEachSeat _ _ g) as [g1 | e1 g1] eqn:E; cbn [andThen].
  - unfold showTwoHandCardsAction. rewrite setState_plain by discriminate.
    discriminate.
  - intros H. inversion H; subst. now apply forEachSeat_throws in E.
Qed.

(** Apart from the deck running out during a deal, the only throw that
    leaves the game changed is the "Unknown ability" one of
    [useAbilityAction]: every other check precedes the first mutation. *)
Lemma throw_leaves_game_unchanged_elsewhere rnd ER g a payload e g' :
  (forall g0 a0 p0 e0 g1, ER g0 a0 p0 = Threw e0 g1 -> g1 = g0) ->
  doAction rnd ER g a payload = Threw e g' ->
  g' = g \/
  e = OutOfCards \/
  (a = Action.USE_ABILITY /\ e = InvalidAction "Unknown ability" /\
   exists c, pickedCard g = Some c /\
             g' = with_pickedCard g (Some (markAsUsed c))).
Proof.
  intros HER. rewrite doAction_unfold. unfold action_body.
  destruct (validateUsingActionBased g a (payloadUserId payload))
    as [[|]|]; try (intros H; inversion H; now left).
  assert (J : forall q, joinAsPlayerAction g (userId q) (playerId q)
                        = Threw e g' -> g' = g).
  { intros q. unfold joinAsPlayerAction.
    destruct (isJoinedAsPlayer g (userId q)); [intros H; now inversion H |].
    destruct (negb _); [intros H; now inversion H |].
    destruct (isFull g); [intros H; now inversion H | discriminate]. }
  assert (S : state_action (action rnd ER 1) rnd ER g a payload = Threw e g'
              -> g' = g \/ e = OutOfCards \/
                 (a = Action.USE_ABILITY /\
                  e = InvalidAction "Unknown ability" /\
                  exists c, pickedCard g = Some c /\
                            g' = with_pickedCard g (Some (markAsUsed c)))).
  { unfold state_action. destruct (state g) eqn:Hs.
    - destruct a; try (intros H; inversion H; now left).
      unfold BeginOfGame_action, startGameAction.
      destruct (isGameStarted g); [intros H; inversion H; now left |].
      cbn [setState action]. unfold action_body. cbn.
      unfold state_action. cbn [with_state state RoundStart_action].
      intros H. right; left. now apply startRoundAction_throws in H.
    - destruct a; try (intros H; inversion H; now left).
      intros H. right; left. now apply startRoundAction_throws in H.
    - destruct a; try (intros H; inversion H; now left); cbn [PickBurn_action].
      + rewrite pickCardFromPileAction_eq.
        destruct (pileOfCards g); [| discriminate].
        intros H; inversion H; now left.
      + rewrite pickCardFromBurnedAction_eq.
        destruct (burnedCards g); [| discriminate].
        intros H; inversion H; now left.
    - destruct a; try (intros H; inversion H; now left).
      unfold PilePicked_action, useAbilityAction.
      destruct (pickedCard g) as [c|]; [| intros H; inversion H; now left].
      destruct (getAbility c); try discriminate.
      intros H. inversion H. right; right. repeat split. now exists c.
    - destruct a; try (intros H; inversion H; now left).
      unfold BurnedPicked_action, PilePicked_action, useAbilityAction.
      destruct (pickedCard g) as [c|]; [| intros H; inversion H; now left].
      destruct (getAbility c); try discriminate.
      intros H. inversion H. right; right. repeat split. now exists c.
    - destruct a, payload; try (intros H; inversion H; now left).
      unfold ExchangeHandWithOther_action, exchangeHandWithOther.
      destruct (isValidPlayer g (otherPlayerId u));
        [| intros H; inversion H; now left].
      destruct (sameSeat _ _); [intros H; inversion H; now left |].
      destruct (userSeat g (userId u)) as [[i p]|];
        [| intros H; inversion H; now left].
      destruct (seatAt g (otherPlayerId u)) as [[j q]|];
        [discriminate | intros H; inversion H; now left].
    - destruct a, payload; try (intros H; inversion H; now left).
      unfold ShowOneHandCard_action, showOneHandCardAction.
      destruct (userSeat g (userId u)) as [[i p]|];
        [discriminate | intros H; inversion H; now left].
    - destruct a, payload; try (intros H; inversion H; now left).
      unfold ShowOneOtherHandCard_action, showOneOtherHandCardAction.
      destruct (isValidPlayer g (otherPlayerId u));
        [| intros H; inversion H; now left].
      destruct (seatAt g (otherPlayerId u)) as [[j q]|];
        [discriminate | intros H; inversion H; now left].
    - destruct a; intros H; inversion H; now left.
    - intros H. left. now apply HER in H.
    - intros H; inversion H; now left. }
  destruct a; try exact S.
  destruct payload as [q|].
  - intros H. left. now apply (J q).
  - intros H; inversion H; now left.
Qed.

(** [endOfTurn], which no action path above calls, clears the picked card
    without putting it anywhere. *)
Lemma endOfTurn_drops_the_picked_card :
  pickedCard picked3 = Some (plainCard 3 12) /\
  ~ In (cid (plainCard 3 12)) (heldIds (endOfTurn picked3)).
Proof.
  split; [vm_compute; reflexivity |].
  vm_compute. intros H. decompose [or] H; try discriminate; assumption.
Qed.

(** * Further properties of the engine *)

(** ** Construction *)

Lemma handIds_repeat_new (k : nat) : handIds (repeat newPlayer k) = [].
Proof. induction k as [|k IH]; [reflexivity | exact IH]. Qed.

(** X1: [new Game(n, state)] is refused exactly when [n] is below 3 or
    above 8; a game that is built has [n] seats with empty hands, the whole
    card set in its deck, nobody joined, no leader, and is not full. *)
Theorem newGame_bounds cards n st :
  (newGame cards n st = None <-> (n < 3 \/ 8 < n)%Z) /\
  (forall g, newGame cards n st = Some g ->
     (3 <= n <= 8)%Z /\
     List.length (players g) = Z.to_nat n /\
     Forall (fun p => handCards p = []) (players g) /\
     deck g = cards /\ pileOfCards g = [] /\ burnedCards g = [] /\
     numberOfPlayers g = 0 /\ leader g = null /\ isFull g = false /\
     state g = st /\ isGameStarted g = false /\ turn g = None /\
     pickedCard g = None).
Proof.
  unfold newGame, isValidMaxNumberOfPlayers, MIN_NUMBER_OF_PLAYERS,
    MAX_NUMBER_OF_PLAYERS.
  destruct (Z.leb_spec 3 n) as [H3 | H3];
    destruct (Z.leb_spec n 8) as [H8 | H8]; cbn [andb].
  2-4: split; [split; [intros _; lia | reflexivity] | discriminate].
  split; [split; [discriminate | lia] |].
  intros g H. inversion H; subst; clear H. fields.
  split; [lia |].
  split; [apply repeat_length |].
  split.
  { apply Forall_forall. intros p Hp. apply repeat_spec in Hp. now subst. }
  repeat split; try reflexivity.
  unfold isFull, numberOfPlayers. fields. cbn [List.length Z.of_nat].
  apply Z.eqb_neq. lia.
Qed.

Lemma newGame_bounds_witness :
  newGame standardCards 3 BeginOfGame = Some (fresh standardCards 3) /\
  List.length (players (fresh standardCards 3)) = 3 /\
  isFull (fresh standardCards 3) = false.
Proof.
  split; [vm_compute; reflexivity |].
  destruct (newGame_bounds standardCards 3 BeginOfGame) as [_ H].
  destruct (H (fresh standardCards 3)) as (_ & Hl & _ & _ & _ & _ & _ & _ & Hf & _).
  - vm_compute. reflexivity.
  - split; assumption.
Defined.

(** ** The validator's buckets *)

Lemma validate_unlisted g a u :
  In a UNLISTED_ACTIONS -> validateUsingActionBased g a u = Some false.
Proof.
  intros Ha. unfold validateUsingActionBased. simpl in Ha.
  decompose [or] Ha; subst; try contradiction; simpl;
    now rewrite andb_false_r.
Qed.

Lemma validate_internal_only g a u :
  In a INTERNAL_ONLY_ACTIONS ->
  validateUsingActionBased g a u = Some (isNullish u).
Proof.
  intros Ha. unfold validateUsingActionBased. simpl in Ha.
  decompose [or] Ha; subst; try contradiction; simpl;
    now rewrite andb_true_r.
Qed.

(** X2: the seven action codes that are in none of the validator's lists
    (among them the three ability-resolution actions) are rejected by
    [doAction] in every state and for every payload, before any handler
    runs; the game is unchanged. *)
Theorem unlisted_actions_always_rejected rnd ER g a payload :
  In a UNLISTED_ACTIONS ->
  validateUsingActionBased g a (payloadUserId payload) = Some false /\
  doAction rnd ER g a payload = Threw InvalidActionClass g.
Proof.
  intros Ha.
  pose proof (validate_unlisted g a (payloadUserId payload) Ha) as V.
  split; [exact V |].
  rewrite doAction_unfold. unfold action_body. now rewrite V.
Qed.

Lemma unlisted_actions_always_rejected_witness :
  play picked3 Action.SHOW_ONE_HAND_CARD (withCard 1 "AA")
    = Threw InvalidActionClass picked3.
Proof.
  apply (unlisted_actions_always_rejected fixedRandom closedEndRound picked3
           Action.SHOW_ONE_HAND_CARD (withCard 1 "AA")).
  simpl. auto 10.
Defined.

(** X3: an internal-only action ([START_ROUND], [DISTRIBUTE_CARD],
    [SELECT_FIRST_TURN], [NEXT_TURN]) passes the validator exactly when the
    call carries no user id; with a user id [doAction] rejects it and the
    game is unchanged. *)
Theorem internal_actions_need_no_user rnd ER g a payload :
  In a INTERNAL_ONLY_ACTIONS ->
  validateUsingActionBased g a (payloadUserId payload)
    = Some (isNullish (payloadUserId payload)) /\
  (isNullish (payloadUserId payload) = false ->
   doAction rnd ER g a payload = Threw InvalidActionClass g).
Proof.
  intros Ha.
  pose proof (validate_internal_only g a (payloadUserId payload) Ha) as V.
  split; [exact V |].
  intros Hn. rewrite doAction_unfold. unfold action_body.
  now rewrite V, Hn.
Qed.

Lemma internal_actions_need_no_user_witness :
  validateUsingActionBased started3 Action.NEXT_TURN
    (payloadUserId (asUser 1)) = Some false /\
  play started3 Action.NEXT_TURN (asUser 1)
    = Threw InvalidActionClass started3.
Proof.
  destruct (internal_actions_need_no_user fixedRandom closedEndRound
              started3 Action.NEXT_TURN (asUser 1)) as [V R].
  - simpl. auto 10.
  - split; [exact V | apply R; reflexivity].
Defined.

(** X4: while the turn is still unset (before the game was started) every
    turn-based action makes the validator itself fail on the missing seat
    object: [doAction] throws a [TypeError], not [InvalidAction], whoever
    calls; the game is unchanged. *)
Theorem turn_based_before_start_is_type_error rnd ER g a payload :
  turn g = None ->
  In a USER_TURN_BASED_ACTION ->
  doAction rnd ER g a payload = Threw TypeError g.
Proof.
  intros Ht Ha. rewrite doAction_unfold. unfold action_body.
  rewrite (validate_turn_based g a _ Ha). unfold isUserTurn.
  now rewrite Ht.
Qed.

Lemma turn_based_before_start_is_type_error_witness :
  play seated3 Action.PICK_CARD_FROM_PILE (asUser 1)
    = Threw TypeError seated3.
Proof.
  apply (turn_based_before_start_is_type_error fixedRandom closedEndRound
           seated3 Action.PICK_CARD_FROM_PILE (asUser 1)).
  - vm_compute. reflexivity.
  - simpl. auto 10.
Defined.

(** ** Joining, in full *)

Lemma strictEq_eq (a b : JsId) : strictEq a b = true <-> a = b.
Proof.
  destruct a, b; simpl; split; intros H; try reflexivity;
    try discriminate H.
  - apply Z.eqb_eq in H. now subst.
  - inversion H. apply Z.eqb_refl.
Qed.

Lemma strictEq_neq (a b : JsId) : strictEq a b = false <-> a <> b.
Proof.
  split.
  - intros H E. apply strictEq_eq in E. congruence.
  - intros H. destruct (strictEq a b) eqn:E; [| reflexivity].
    apply strictEq_eq in E. contradiction.
Qed.

Lemma mapGet_None (k : JsId) (m : list (JsId * option nat)) :
  mapGet k m = None <-> ~ In k (map fst m).
Proof.
  induction m as [|[k' v] m IH]; simpl; [tauto |].
  destruct (strictEq k' k) eqn:E.
  - apply strictEq_eq in E. split; [discriminate | tauto].
  - apply strictEq_neq in E. rewrite IH. tauto.
Qed.

Lemma mapSet_new (k : JsId) (v : option nat) (m : list (JsId * option nat)) :
  mapGet k m = None -> mapSet k v m = m ++ [(k, v)].
Proof.
  induction m as [|[k' v'] m IH]; simpl; [reflexivity |].
  destruct (strictEq k' k); [discriminate |].
  intros H. now rewrite IH.
Qed.

Lemma mapGet_app_one (k k' : JsId) (v : option nat)
  (m : list (JsId * option nat)) :
  mapGet k' (m ++ [(k, v)]) =
  match mapGet k' m with
  | Some x => Some x
  | None => if strictEq k k' then Some v else None
  end.
Proof.
  induction m as [|[k0 v0] m IH]; simpl; [reflexivity |].
  now destruct (strictEq k0 k').
Qed.

Lemma isJoinedAsPlayer_false g u :
  isJoinedAsPlayer g u = false <-> mapGet u (userPlayer g) = None.
Proof.
  unfold isJoinedAsPlayer, mapHas.
  destruct (mapGet u (userPlayer g)); split; intros H;
    try reflexivity; discriminate H.
Qed.

Lemma doAction_join rnd ER g q :
  doAction rnd ER g Action.JOIN_AS_PLAYER (Some q) =
  if isNullish (userId q) then Threw InvalidActionClass g
  else joinAsPlayerAction g (userId q) (playerId q).
Proof.
  rewrite doAction_unfold. unfold action_body, validateUsingActionBased.
  cbn. now destruct (isNullish (userId q)).
Qed.

(** What an accepted join leaves behind. *)
Lemma joinAsPlayerAction_done g u pid g' :
  joinAsPlayerAction g u pid = Done g' ->
  mapGet u (userPlayer g) = None /\
  isValidPlayer g pid = true /\
  isFull g = false /\
  g' = with_userPlayer
         (with_leader g (match userPlayer g with
                         | [] => u
                         | _ :: _ => leader g
                         end))
         (userPlayer g ++ [(u, seatRef g pid)]).
Proof.
  unfold joinAsPlayerAction.
  destruct (isJoinedAsPlayer g u) eqn:Ej; [discriminate |].
  destruct (isValidPlayer g pid) eqn:Ev; cbn [negb]; [| discriminate].
  destruct (isFull g); [discriminate |].
  apply isJoinedAsPlayer_false in Ej.
  intros H. inversion H; subst; clear H.
  repeat split; try assumption.
  unfold numberOfPlayers, setLeader.
  destruct (userPlayer g) eqn:Em; cbn [List.length Nat.eqb].
  - unfold with_userPlayer, with_leader, seatRef. fields.
    now rewrite Em.
  - rewrite <- Em in *. rewrite (mapSet_new _ _ _ Ej).
    unfold with_userPlayer, with_leader. fields. now rewrite Em.
Qed.

(** X5: [doAction(JOIN_AS_PLAYER, payload)] succeeds exactly when the
    payload carries a user id, that user has not joined yet, the seat index
    passes the range check (a number inside the seat array, or [null], which
    the comparison converts to 0) and the game is not full; in every other
    case it throws and the game is unchanged. *)
Theorem join_accepted_iff rnd ER g q :
  ((exists g', doAction rnd ER g Action.JOIN_AS_PLAYER (Some q) = Done g')
   <->
   isNullish (userId q) = false /\
   isJoinedAsPlayer g (userId q) = false /\
   isValidPlayer g (playerId q) = true /\
   isFull g = false) /\
  (isValidPlayer g (playerId q) = true <->
   (exists z, playerId q = num z /\
              (0 <= z < Z.of_nat (List.length (players g)))%Z) \/
   (playerId q = null /\ players g <> [])) /\
  (forall e g', doAction rnd ER g Action.JOIN_AS_PLAYER (Some q) = Threw e g'
                -> g' = g).
Proof.
  split; [| split].
  - rewrite doAction_join. unfold joinAsPlayerAction.
    destruct (isNullish (userId q)).
    { split; [intros [g' H]; discriminate H | intros (H & _); discriminate H]. }
    destruct (isJoinedAsPlayer g (userId q)).
    { split; [intros [g' H]; discriminate H
             | intros (_ & H & _); discriminate H]. }
    destruct (isValidPlayer g (playerId q)); cbn [negb].
    2:{ split; [intros [g' H]; discriminate H
               | intros (_ & _ & H & _); discriminate H]. }
    destruct (isFull g).
    { split; [intros [g' H]; discriminate H
             | intros (_ & _ & _ & H); discriminate H]. }
    split; [intros _; repeat split; reflexivity | intros _; eexists; reflexivity].
  - unfold isValidPlayer. destruct (playerId q) as [| | z].
    + split; [discriminate |].
      intros [(z & H & _) | (H & _)]; discriminate H.
    + cbn [Z.leb andb]. split.
      * intros H. right. split; [reflexivity |].
        apply Z.ltb_lt in H. destruct (players g); [simpl in H; lia |].
        discriminate.
      * intros [(z & H & _) | (_ & H)]; [discriminate H |].
        apply Z.ltb_lt. destruct (players g); [now elim H | simpl; lia].
    + split.
      * intros H. left. exists z. split; [reflexivity |].
        apply andb_true_iff in H. destruct H as [H0 H1].
        apply Z.leb_le in H0. apply Z.ltb_lt in H1. lia.
      * intros [(z' & H & Hz) | (H & _)]; [| discriminate H].
        inversion H; subst. apply andb_true_iff.
        split; [apply Z.leb_le | apply Z.ltb_lt]; lia.
  - intros e g'. rewrite doAction_join. unfold joinAsPlayerAction.
    destruct (isNullish (userId q)); [intros H; now inversion H |].
    destruct (isJoinedAsPlayer g (userId q)); [intros H; now inversion H |].
    destruct (negb (isValidPlayer g (playerId q)));
      [intros H; now inversion H |].
    destruct (isFull g); [intros H; now inversion H | discriminate].
Qed.

(** X6: an accepted join binds the user to [players[playerId]] and touches
    nothing else.  For a numeric seat index that is the seat of that index,
    and the user's seat object is found afterwards; for [null] it is
    [undefined]: the user counts as joined but has no seat object.  The
    binding of every other user is as before, one more user is counted, the
    leader is the joiner when nobody had joined and the old leader
    otherwise, and seats, cards, phase and turn are untouched. *)
Theorem join_binds_user_to_seat rnd ER g q g' :
  doAction rnd ER g Action.JOIN_AS_PLAYER (Some q) = Done g' ->
  mapGet (userId q) (userPlayer g') = Some (seatRef g (playerId q)) /\
  ((exists z p,
      playerId q = num z /\
      (0 <= z < Z.of_nat (List.length (players g)))%Z /\
      nth_error (players g) (Z.to_nat z) = Some p /\
      userSeat g' (userId q) = Some (Z.to_nat z, p)) \/
   (playerId q = null /\ userSeat g' (userId q) = None)) /\
  isJoinedAsPlayer g' (userId q) = true /\
  (forall v, v <> userId q ->
             mapGet v (userPlayer g') = mapGet v (userPlayer g)) /\
  numberOfPlayers g' = S (numberOfPlayers g) /\
  leader g' = (if Nat.eqb (numberOfPlayers g) 0 then userId q
               else leader g) /\
  players g' = players g /\ deck g' = deck g /\
  pileOfCards g' = pileOfCards g /\ burnedCards g' = burnedCards g /\
  pickedCard g' = pickedCard g /\ state g' = state g /\
  turn g' = turn g /\ isGameStarted g' = isGameStarted g.
Proof.
  rewrite doAction_join.
  destruct (isNullish (userId q)); [discriminate |].
  intros H. destruct (joinAsPlayerAction_done _ _ _ _ H)
    as (Ej & Ev & _ & ->). clear H.
  assert (G : mapGet (userId q)
                (userPlayer g ++ [(userId q, seatRef g (playerId q))])
              = Some (seatRef g (playerId q))).
  { rewrite mapGet_app_one, Ej.
    now rewrite (proj2 (strictEq_eq _ _) eq_refl). }
  unfold numberOfPlayers, isJoinedAsPlayer, mapHas. fields.
  split; [exact G |].
  split.
  { unfold userSeat. fields. rewrite G.
    unfold isValidPlayer in Ev. unfold seatRef.
    destruct (playerId q) as [| | z]; [discriminate Ev | now right |].
    left. rewrite Ev.
    apply andb_true_iff in Ev. destruct Ev as [E0 E1].
    apply Z.leb_le in E0. apply Z.ltb_lt in E1.
    destruct (nth_error (players g) (Z.to_nat z)) as [p|] eqn:En.
    - exists z, p. split; [reflexivity |]. split; [lia |].
      split; [exact En | reflexivity].
    - apply nth_error_None in En. lia. }
  split; [now rewrite G |].
  split.
  { intros v Hv. rewrite mapGet_app_one.
    destruct (mapGet v (userPlayer g)); [reflexivity |].
    apply not_eq_sym in Hv. apply strictEq_neq in Hv. now rewrite Hv. }
  split; [rewrite length_app; simpl; lia |].
  split; [now destruct (userPlayer g) |].
  repeat split; reflexivity.
Qed.

Lemma join_binds_user_to_seat_witness :
  mapGet (num 2)
    (userPlayer (stateAfter (play seated1 Action.JOIN_AS_PLAYER
                               (joinAt 2 1)))) = Some (Some 1) /\
  mapGet (num 1) (userPlayer nullJoined) = Some None /\
  userSeat nullJoined (num 1) = None /\
  isJoinedAsPlayer nullJoined (num 1) = true.
Proof.
  destruct (join_binds_user_to_seat fixedRandom closedEndRound seated1
              (mkPayload (num 2) (num 1) None undefined None)
              (stateAfter (play seated1 Action.JOIN_AS_PLAYER (joinAt 2 1))))
    as (Hg & _); [vm_compute; reflexivity |].
  destruct (join_binds_user_to_seat fixedRandom closedEndRound
              (fresh standardCards 3)
              (mkPayload (num 1) null None undefined None) nullJoined)
    as (Hn & [(z & p & Hz & _) | (_ & Hs)] & Hj & _);
    [vm_compute; reflexivity | discriminate Hz |].
  repeat split; assumption.
Defined.

(** X7: a user who has joined cannot join again: after an accepted join,
    every further join by the same user, to whatever seat, throws "Player
    already joined" and changes nothing. *)
Theorem second_join_rejected rnd ER g q g' q' :
  doAction rnd ER g Action.JOIN_AS_PLAYER (Some q) = Done g' ->
  userId q' = userId q ->
  doAction rnd ER g' Action.JOIN_AS_PLAYER (Some q')
    = Threw (InvalidAction "Player already joined") g'.
Proof.
  intros H Hu.
  assert (N : isNullish (userId q) = false).
  { rewrite doAction_join in H.
    destruct (isNullish (userId q)); [discriminate H | reflexivity]. }
  rewrite doAction_join, N in H.
  destruct (joinAsPlayerAction_done _ _ _ _ H) as (Ej & _ & _ & ->).
  rewrite doAction_join, Hu, N. unfold joinAsPlayerAction.
  unfold isJoinedAsPlayer, mapHas. fields.
  rewrite mapGet_app_one, Ej.
  now rewrite (proj2 (strictEq_eq _ _) eq_refl).
Qed.

Lemma second_join_rejected_witness :
  play seated1 Action.JOIN_AS_PLAYER (joinAt 1 2)
    = Threw (InvalidAction "Player already joined") seated1.
Proof.
  apply (second_join_rejected fixedRandom closedEndRound
           (fresh standardCards 3)
           (mkPayload (num 1) (num 0) None undefined None)
           seated1 (mkPayload (num 1) (num 2) None undefined None)).
  - vm_compute. reflexivity.
  - reflexivity.
Defined.

(** ** Turn order *)

Lemma nextTurn_seats (g : Game) : players (nextTurn g) = players g.
Proof. unfold nextTurn. now destruct (turn g). Qed.

Lemma nextTurn_players (k : nat) (g : Game) :
  players (Nat.iter k nextTurn g) = players g.
Proof.
  induction k as [|k IH]; [reflexivity |].
  rewrite Nat.iter_succ, nextTurn_seats. exact IH.
Qed.

Lemma nextTurn_turn (g : Game) (t : nat) :
  turn g = Some t ->
  turn (nextTurn g) = Some ((t + 1) mod List.length (players g)).
Proof. intros H. unfold nextTurn. now rewrite H. Qed.

(** X8: from a turn index inside the seat array, [nextTurn] moves to the
    next seat and wraps around after the last: [k] calls lead to seat
    [(t + k) mod seats], which is again inside the array, and as many calls
    as there are seats come back to the seat they started from. *)
Theorem nextTurn_cycles g t :
  turn g = Some t ->
  t < List.length (players g) ->
  (forall k,
     turn (Nat.iter k nextTurn g)
       = Some ((t + k) mod List.length (players g)) /\
     (t + k) mod List.length (players g) < List.length (players g)) /\
  turn (Nat.iter (List.length (players g)) nextTurn g) = Some t.
Proof.
  intros Ht Hlt.
  assert (HN : List.length (players g) <> 0) by lia.
  assert (K : forall k,
             turn (Nat.iter k nextTurn g)
             = Some ((t + k) mod List.length (players g))).
  { induction k as [|k IH].
    - cbn. rewrite Nat.add_0_r, Nat.mod_small by assumption.
      exact Ht.
    - rewrite Nat.iter_succ, (nextTurn_turn _ _ IH), nextTurn_players.
      rewrite Nat.Div0.add_mod_idemp_l. f_equal. f_equal. lia. }
  split.
  - intros k. split; [apply K |]. now apply Nat.mod_upper_bound.
  - rewrite K. f_equal.
    replace (t + List.length (players g))
      with (t + 1 * List.length (players g)) by lia.
    rewrite Nat.Div0.mod_add. now apply Nat.mod_small.
Qed.

Lemma nextTurn_cycles_witness :
  turn (Nat.iter (List.length (players started3)) nextTurn started3)
    = Some 0.
Proof.
  apply (nextTurn_cycles started3 0); vm_compute; [reflexivity | lia].
Defined.

(** ** Ability resolution *)

Lemma userSeat_nth g u i p :
  userSeat g u = Some (i, p) -> nth_error (players g) i = Some p.
Proof. intros H. now destruct (userSeat_inv _ _ _ _ H). Qed.

Lemma seatRef_lt g pid j :
  seatRef g pid = Some j -> j < List.length (players g).
Proof.
  unfold seatRef. destruct pid as [| | z]; try discriminate.
  destruct (Z.leb 0 z && Z.ltb z (Z.of_nat (List.length (players g))))
    eqn:E; [| discriminate].
  intros H. inversion H; subst.
  apply andb_true_iff in E. destruct E as [E0 E1].
  apply Z.leb_le in E0. apply Z.ltb_lt in E1. lia.
Qed.

Lemma seatAt_seatRef g pid :
  seatAt g pid =
  match seatRef g pid with
  | Some j => option_map (fun q => (j, q)) (nth_error (players g) j)
  | None => None
  end /\
  (forall j, seatRef g pid = Some j -> exists q, seatAt g pid = Some (j, q)).
Proof.
  unfold seatAt. split.
  - destruct (seatRef g pid) as [j|]; [| reflexivity].
    now destruct (nth_error (players g) j).
  - intros j Hj. rewrite Hj.
    destruct (nth_error (players g) j) as [q|] eqn:E; [now exists q |].
    apply nth_error_None in E. apply seatRef_lt in Hj. lia.
Qed.

(** X9: [exchangeHandWithOther] returns, with only the phase changed to
    [Burn], exactly when the other seat index passes the range check, names
    a seat, the acting user has a seat object, and the two seats differ.
    An index that fails the range check, the user's own seat, and a missing
    seat object on either side each make it throw with the game unchanged
    (when both are missing, as for an unbound user and the index [null], the
    two [undefined] compare equal and the "your self" error is thrown).  The
    two card ids play no part in the outcome. *)
Theorem exchangeHandWithOther_outcome self g u id other otherId :
  exchangeHandWithOther self g u id other otherId =
  (if isValidPlayer g other then
     match userSeat g u, seatRef g other with
     | Some (i, _), Some j =>
         if Nat.eqb i j
         then Threw (InvalidAction
                       "Changing card with your self is not allowed") g
         else Done (with_state g Burn)
     | None, None =>
         Threw (InvalidAction
                  "Changing card with your self is not allowed") g
     | _, _ => Threw TypeError g
     end
   else Threw (InvalidAction "Pick valid card your turn.") g) /\
  (forall id' otherId',
     exchangeHandWithOther self g u id' other otherId'
     = exchangeHandWithOther self g u id other otherId).
Proof.
  assert (E : forall a b,
             exchangeHandWithOther self g u a other b =
             (if isValidPlayer g other then
                match userSeat g u, seatRef g other with
                | Some (i, _), Some j =>
                    if Nat.eqb i j
                    then Threw (InvalidAction
                           "Changing card with your self is not allowed") g
                    else Done (with_state g Burn)
                | None, None =>
                    Threw (InvalidAction
                             "Changing card with your self is not allowed") g
                | _, _ => Threw TypeError g
                end
              else Threw (InvalidAction "Pick valid card your turn.") g)).
  { intros a b. unfold exchangeHandWithOther.
    destruct (isValidPlayer g other) eqn:Ev; [| reflexivity].
    destruct (seatAt_seatRef g other) as [Hs Hq].
    destruct (seatRef g other) as [j|] eqn:Er.
    - destruct (Hq j eq_refl) as [q Hj]. rewrite Hj.
      destruct (userSeat g u) as [[i p]|]; cbn [sameSeat]; [| reflexivity].
      now destruct (Nat.eqb i j).
    - rewrite Hs.
      now destruct (userSeat g u) as [[i p]|]. }
  split; [apply E |]. intros id' otherId'. now rewrite !E.
Qed.

(** X10: the other three ability operations look at no card either.
    [exchangePickWithHandAction] and [showOneHandCardAction] return, with
    only the phase changed to [Burn], exactly when the user has a seat
    object, and throw a [TypeError] otherwise; [showOneOtherHandCardAction]
    returns exactly when the seat index passes the range check and names a
    seat, whoever the user is, and throws a [TypeError] for the index [null],
    which passes the check but names no seat.  Whether the named card exists
    is never checked. *)
Theorem card_ids_are_never_checked self g u id other otherId :
  exchangePickWithHandAction self g u id =
    (match userSeat g u with
     | Some _ => Done (with_state g Burn)
     | None => Threw TypeError g
     end) /\
  showOneHandCardAction self g u id =
    (match userSeat g u with
     | Some _ => Done (with_state g Burn)
     | None => Threw TypeError g
     end) /\
  showOneOtherHandCardAction self g u other otherId =
    (if isValidPlayer g other then
       match seatRef g other with
       | Some _ => Done (with_state g Burn)
       | None => Threw TypeError g
       end
     else Threw (InvalidAction "Pick valid card") g).
Proof.
  split; [| split].
  - unfold exchangePickWithHandAction.
    now destruct (userSeat g u) as [[i p]|].
  - unfold showOneHandCardAction.
    now destruct (userSeat g u) as [[i p]|].
  - unfold showOneOtherHandCardAction.
    destruct (isValidPlayer g other) eqn:Ev; [| reflexivity].
    destruct (seatAt_seatRef g other) as [Hs Hq].
    destruct (seatRef g other) as [j|] eqn:Er.
    + destruct (Hq j eq_refl) as [q Hj]. now rewrite Hj.
    + now rewrite Hs.
Qed.

(** X11: [useAbilityAction] throws a [TypeError], changing nothing, when no
    card is picked.  When it returns, the picked card carried one of the
    four known abilities, it is now marked as used, the phase is the one of
    that ability ([Burn] for [NO_ABILITY]) and nothing else changed; a
    second use of the same card marks nothing more. *)
Theorem useAbilityAction_outcome self g :
  (pickedCard g = None -> useAbilityAction self g = Threw TypeError g) /\
  (forall g', useAbilityAction self g = Done g' ->
     exists c s,
       pickedCard g = Some c /\
       abilityPhase (getAbility c) = Some s /\
       g' = with_state (with_pickedCard g (Some (markAsUsed c))) s /\
       markAsUsed (markAsUsed c) = markAsUsed c /\
       containerIds g' = containerIds g /\
       heldIds g' = heldIds g).
Proof.
  unfold useAbilityAction. split.
  - intros H. now rewrite H.
  - intros g'. destruct (pickedCard g) as [c|] eqn:Ec; [| discriminate].
    destruct (getAbility c) eqn:Ea; try discriminate;
      rewrite setState_plain by discriminate;
      intros H; inversion H; subst; clear H;
      exists c; eexists; unfold getAbility in *; rewrite Ea;
      (split; [reflexivity |]); (split; [reflexivity |]);
      (split; [reflexivity |]); (split; [reflexivity |]);
      unfold heldIds, containerIds, pickedIds; fields;
      rewrite Ec; split; reflexivity.
Qed.

Lemma useAbilityAction_outcome_witness :
  useAbilityAction (fun g _ _ => Done g) started3 = Threw TypeError started3
  /\
  exists c s,
    pickedCard picked3 = Some c /\
    abilityPhase (getAbility c) = Some s /\
    stateAfter (useAbilityAction (fun g _ _ => Done g) picked3)
      = with_state (with_pickedCard picked3 (Some (markAsUsed c))) s /\
    used c = false /\ s = Burn.
Proof.
  destruct (useAbilityAction_outcome (fun g _ _ => Done g) started3)
    as [T _].
  split; [apply T; vm_compute; reflexivity |].
  destruct (useAbilityAction_outcome (fun g _ _ => Done g) picked3)
    as [_ R].
  destruct (R (stateAfter (useAbilityAction (fun g _ _ => Done g) picked3)))
    as (c & s & Hc & Hs & Hg & _); [vm_compute; reflexivity |].
  exists c, s. split; [exact Hc |]. split; [exact Hs |].
  split; [exact Hg |].
  assert (E : c = plainCard 3 12).
  { assert (P : pickedCard picked3 = Some (plainCard 3 12))
      by (vm_compute; reflexivity).
    congruence. }
  subst c. split; [reflexivity |].
  vm_compute in Hs. congruence.
Defined.

(** ** Conservation, method by method *)

(** Moves single ids to the front and compares what is left. *)
Ltac ids_perm :=
  repeat (progress (rewrite <- ?app_assoc; cbn [app];
                    rewrite <- ?Permutation_middle; cbn [app]));
  try reflexivity; try apply perm_swap.

Lemma handIds_at (ps : list Player) (i : nat) (p : Player) :
  nth_error ps i = Some p ->
  exists A B,
    handIds ps = A ++ map cid (handCards p) ++ B /\
    forall h,
      handIds (updateAt i (fun _ => mkPlayer h) ps) = A ++ map cid h ++ B.
Proof.
  revert i. induction ps as [|q ps IH]; intros [|i] H; simpl in H;
    try discriminate H.
  - inversion H; subst. exists [], (handIds ps). split; reflexivity.
  - destruct (IH i H) as (A & B & E1 & E2).
    exists (map cid (handCards q) ++ A), B. unfold handIds in *. simpl.
    split.
    + now rewrite E1, <- app_assoc.
    + intros h. now rewrite E2, <- app_assoc.
Qed.

Lemma remove_ids (c : Card) (h : CardHand.t) :
  In (cid c) (map cid h) ->
  Permutation (map cid h) (cid c :: map cid (CardHand.remove c h)).
Proof.
  induction h as [|d h IH]; simpl; [contradiction |].
  unfold sameCard at 1. destruct (String.eqb (cid d) (cid c)) eqn:E.
  - apply String.eqb_eq in E. now rewrite E.
  - intros [H | H].
    + rewrite H, String.eqb_refl in E. discriminate E.
    + simpl. rewrite (IH H). apply perm_swap.
Qed.

(** X12: whenever [burnOneHandCardAction] returns, no card was lost or
    duplicated: deck, draw pile, burn pile, hands and picked card together
    hold the same card ids as before, the deck, the draw pile and the
    picked card are untouched, and hands and burn pile together still have
    as many cards. *)
Theorem burn_conserves_cards self g u id g' :
  burnOneHandCardAction self g u id = Done g' ->
  Permutation (heldIds g') (heldIds g) /\
  deck g' = deck g /\ pileOfCards g' = pileOfCards g /\
  pickedCard g' = pickedCard g /\
  List.length (handIds (players g')) + List.length (burnedCards g')
    = List.length (handIds (players g)) + List.length (burnedCards g).
Proof.
  unfold burnOneHandCardAction.
  destruct (burnedCards g) as [|topCard rest] eqn:Eb; [discriminate |].
  cbn [CardStack.isEmpty CardStack.top hd_error CardStack.pick].
  destruct (userSeat g u) as [[i p]|] eqn:Eu; [| discriminate].
  destruct (getCard p id) as [card|] eqn:Ec; [| discriminate].
  apply userSeat_nth in Eu.
  destruct (handIds_at _ _ _ Eu) as (A & B & E1 & E2).
  destruct (getCard_In _ _ _ Ec) as [Hin _].
  destruct (equalsRank card topCard);
    rewrite setState_plain by discriminate;
    intros H; inversion H; subst; clear H;
    unfold heldIds, containerIds, pickedIds; fields;
    rewrite ?Eb, E1, E2.
  - pose proof (remove_ids card (handCards p) (in_map cid _ _ Hin)) as R.
    split.
    + rewrite R. unfold CardStack.put. cbn [map app]. ids_perm.
    + repeat split; try reflexivity.
      apply Permutation_length in R. cbn [List.length] in R.
      unfold CardStack.put. rewrite !length_app, !length_map in *.
      cbn [List.length]. lia.
  - split.
    + unfold CardHand.add. rewrite map_app. cbn [map app]. ids_perm.
    + repeat split; try reflexivity.
      unfold CardHand.add. rewrite !length_app, !length_map, length_app.
      cbn [List.length]. lia.
Qed.

Lemma burn_conserves_cards_witness :
  Permutation
    (heldIds (stateAfter (burnOneHandCardAction (fun g _ _ => Done g)
                            burnReady (num 1) (Some "AA"%string))))
    (heldIds burnReady).
Proof.
  destruct (burn_conserves_cards (fun g _ _ => Done g) burnReady (num 1)
              (Some "AA"%string)
              (stateAfter (burnOneHandCardAction (fun g _ _ => Done g)
                             burnReady (num 1) (Some "AA"%string))))
    as [P _].
  - vm_compute. reflexivity.
  - exact P.
Defined.

(** X13: a pick conserves the cards only when no card is in flight.  When
    [pickCardFromPileAction] or [pickCardFromBurnedAction] returns, the card
    ids held after it, plus the id of the card that was in [pickedCard]
    before (if any), are the card ids held before: a card already picked is
    overwritten and held nowhere any more. *)
Theorem pick_overwrites_picked_card self g g' :
  pickCardFromPileAction self g = Done g' \/
  pickCardFromBurnedAction self g = Done g' ->
  Permutation (pickedIds g ++ heldIds g') (heldIds g) /\
  (pickedCard g = None -> Permutation (heldIds g') (heldIds g)) /\
  exists c, pickedCard g' = Some c.
Proof.
  intros H.
  assert (P : Permutation (pickedIds g ++ heldIds g') (heldIds g) /\
              exists c, pickedCard g' = Some c).
  { destruct H as [H | H].
    - rewrite pickCardFromPileAction_eq in H.
      destruct (pileOfCards g) as [|c rest] eqn:Ep; [discriminate |].
      inversion H; subst; clear H. split; [| now exists c].
      unfold heldIds, containerIds. rewrite Ep.
      unfold pickedIds at 2. fields. cbn [map app].
      rewrite (Permutation_app_comm (pickedIds g)). ids_perm.
    - rewrite pickCardFromBurnedAction_eq in H.
      destruct (burnedCards g) as [|c rest] eqn:Ep; [discriminate |].
      inversion H; subst; clear H. split; [| now exists c].
      unfold heldIds, containerIds. rewrite Ep.
      unfold pickedIds at 2. fields. cbn [map app].
      rewrite (Permutation_app_comm (pickedIds g)). ids_perm. }
  destruct P as [P Hc]. split; [exact P |]. split; [| exact Hc].
  intros Hn. unfold pickedIds at 1 in P. now rewrite Hn in P.
Qed.

Lemma pick_overwrites_picked_card_witness :
  pickedIds picked3 = [cid (plainCard 3 12)] /\
  pickedCard (stateAfter (pickCardFromPileAction (fun g _ _ => Done g)
                            picked3)) = Some (plainCard 3 11) /\
  Permutation
    (pickedIds picked3
       ++ heldIds (stateAfter (pickCardFromPileAction (fun g _ _ => Done g)
                                 picked3)))
    (heldIds picked3).
Proof.
  split; [vm_compute; reflexivity |].
  split; [vm_compute; reflexivity |].
  destruct (pick_overwrites_picked_card (fun g _ _ => Done g) picked3
              (stateAfter (pickCardFromPileAction (fun g _ _ => Done g)
                             picked3))) as [P _].
  - left. vm_compute. reflexivity.
  - exact P.
Defined.

(** X14: whenever [distributeCardsAction] returns, the deck is empty, the
    burn pile and the picked card are untouched, the number of seats is the
    same, and hands and draw pile have taken over the deck: the card ids
    held are the same as before. *)
Theorem deal_conserves_cards g g' :
  distributeCardsAction g = Done g' ->
  deck g' = [] /\
  Permutation (heldIds g') (heldIds g) /\
  burnedCards g' = burnedCards g /\
  pickedCard g' = pickedCard g /\
  List.length (players g') = List.length (players g).
Proof.
  intros H. pose proof (distributeCardsAction_sameCards g) as S.
  rewrite H in S. cbn [stateAfter] in S.
  destruct S as [S1 S2 S3 _ S5].
  split; [| repeat split; assumption].
  unfold distributeCardsAction in H.
  destruct (forEachSeat _ _ g) as [g1 | e g1]; cbn [andThen] in H;
    [| discriminate H].
  now inversion H.
Qed.

Lemma deal_conserves_cards_witness :
  deck (stateAfter (distributeCardsAction seated1)) = [].
Proof.
  destruct (deal_conserves_cards seated1
              (stateAfter (distributeCardsAction seated1))) as [D _].
  - vm_compute. reflexivity.
  - exact D.
Defined.

(** ** The end-of-game phase *)

(** X15: [EndOfGame] is closed: its handler switches on an action code the
    enum does not have, so in this phase every action but [JOIN_AS_PLAYER]
    (which never reaches a handler) is rejected, by the validator or by the
    handler, and the game is unchanged; an action that passed the validator
    gets the "not allowed in current state" error. *)
Theorem end_of_game_accepts_nothing rnd ER g a payload :
  state g = EndOfGame ->
  a <> Action.JOIN_AS_PLAYER ->
  (exists e, doAction rnd ER g a payload = Threw e g) /\
  (validateUsingActionBased g a (payloadUserId payload) = Some true ->
   doAction rnd ER g a payload = Threw (InvalidAction defaultMessage) g).
Proof.
  intros Hs Ha. rewrite doAction_unfold. unfold action_body.
  destruct (validateUsingActionBased g a (payloadUserId payload))
    as [[|]|].
  - assert (E : state_action (action rnd ER 1) rnd ER g a payload
                = Threw (InvalidAction defaultMessage) g).
    { unfold state_action. now rewrite Hs. }
    destruct a; try (split; [eexists; exact E | intros _; exact E]).
    now elim Ha.
  - split; [now eexists | discriminate].
  - split; [now eexists | discriminate].
Qed.

Lemma end_of_game_accepts_nothing_witness :
  exists e,
    play (with_state started3 EndOfGame) Action.PICK_CARD_FROM_PILE (asUser 1)
    = Threw e (with_state started3 EndOfGame).
Proof.
  apply (end_of_game_accepts_nothing fixedRandom closedEndRound
           (with_state started3 EndOfGame) Action.PICK_CARD_FROM_PILE
           (asUser 1)).
  - reflexivity.
  - discriminate.
Defined.

(** ** Starting the game *)

(** X16: [startGameAction] on a game that was not started, with at least
    four deck cards per seat: through the re-entrant [START_ROUND] call it
    ends in [PickBurn] with the started flag set, a first turn inside the
    seat array, an empty deck, four more cards in every hand and the rest of
    the deck on the draw pile, all cards conserved; on the resulting game a
    second [startGameAction] throws "Game already started" and changes
    nothing. *)
Theorem startGameAction_deals_once rnd ER g :
  isGameStarted g = false ->
  fairRandom rnd ->
  0 < List.length (players g) ->
  4 * List.length (players g) <= List.length (deck g) ->
  exists g',
    startGameAction (action rnd ER 1) rnd g = Done g' /\
    state g' = PickBurn /\ isGameStarted g' = true /\
    (exists t, turn g' = Some t /\ t < List.length (players g')) /\
    deck g' = [] /\
    List.length (players g') = List.length (players g) /\
    (forall i p p', nth_error (players g) i = Some p ->
       nth_error (players g') i = Some p' ->
       List.length (handCards p') = List.length (handCards p) + 4) /\
    List.length (pileOfCards g') + 4 * List.length (players g)
      = List.length (pileOfCards g) + List.length (deck g) /\
    Permutation (heldIds g') (heldIds g) /\
    startGameAction (action rnd ER 1) rnd g'
      = Threw (InvalidAction "Game already started") g'.
Proof.
  intros Hs [Hsh Hri] HN Hd.
  unfold startGameAction at 1. rewrite Hs. cbn [setState action].
  unfold action_body. cbn. unfold state_action. fields.
  cbn [RoundStart_action]. unfold startRoundAction, selectFirstTurnAction.
  pose proof (Permutation_length (Hsh (deck g))) as Hl.
  rewrite distributeCardsAction_enough by (fields; lia).
  cbn [andThen]. unfold showTwoHandCardsAction.
  rewrite setState_plain by discriminate.
  eexists. split; [reflexivity |]. fields.
  split; [reflexivity |]. split; [reflexivity |].
  split.
  { eexists. split; [reflexivity |]. rewrite dealAll_length. now apply Hri. }
  split; [reflexivity |].
  split; [apply dealAll_length |].
  split.
  { intros i p p' Hp Hp'. rewrite (dealAll_nth _ _ _ _ Hp) in Hp'.
    assert (E : p' = mkPlayer (handCards p
                  ++ firstn 4 (skipn (4 * i) (shuffle rnd (deck g)))))
      by congruence.
    rewrite E. cbn [handCards].
    rewrite length_app, firstn_length_le; [reflexivity |].
    rewrite length_skipn.
    assert (i < List.length (players g)) by (apply nth_error_Some; congruence).
    lia. }
  split.
  { rewrite length_app, length_rev, length_skipn. lia. }
  split.
  { pose proof (distributeCardsAction_sameCards
                  (with_state
                     (with_turn
                        (with_deck (with_isGameStarted g true)
                           (shuffle rnd (deck g)))
                        (Some (randomIndex rnd (List.length (players g)))))
                     RoundStart)) as S.
    rewrite distributeCardsAction_enough in S by (fields; lia).
    cbn [stateAfter] in S. apply same_ids in S.
    unfold heldIds, containerIds, pickedIds in *. fields.
    rewrite S. now rewrite (Permutation_map cid (Hsh (deck g))). }
  reflexivity.
Qed.

Lemma startGameAction_deals_once_witness :
  exists g',
    startGameAction (action fixedRandom closedEndRound 1) fixedRandom seated3
      = Done g' /\
    state g' = PickBurn.
Proof.
  destruct (startGameAction_deals_once fixedRandom closedEndRound seated3)
    as (g' & E & S & _).
  - vm_compute. reflexivity.
  - exact fixedRandom_fair.
  - vm_compute. lia.
  - vm_compute. lia.
  - exists g'. split; assumption.
Defined.

(** ** The transport layer's calls *)

Lemma queue_fold (games : list Game) (acc : option Game) :
  let r := fold_left
             (fun game _game =>
                if negb (isFull _game) then Some _game else game)
             games acc in
  (Forall (fun x => isFull x = true) games /\ r = acc) \/
  (exists pre g post,
     games = pre ++ g :: post /\ isFull g = false /\
     Forall (fun x => isFull x = true) post /\ r = Some g).
Proof.
  revert acc. induction games as [|x rest IH]; intros acc; cbn [fold_left].
  - left. split; [constructor | reflexivity].
  - destruct (IH (if negb (isFull x) then Some x else acc))
      as [[Hall Hr] | (pre & g & post & -> & Hg & Hp & Hr)].
    + destruct (isFull x) eqn:Ex; cbn [negb] in Hr.
      * left. split; [now constructor | exact Hr].
      * right. exists [], x, rest. now repeat split.
    + right. exists (x :: pre), g, post. now repeat split.
Qed.

(** X17: [joinQueueEvent] offers the user the last game of the registry
    that is not full (the loop does not stop at the first), and refuses only
    when every game is full or there is none.  The join it then asks for
    carries no seat index, and the engine rejects every such join: the
    chosen game is left unchanged and the user is not seated. *)
Theorem joinQueueEvent_never_seats rnd ER games u :
  match joinQueueEvent rnd ER games u with
  | Forwarded game o =>
      (exists pre post,
         games = pre ++ game :: post /\ isFull game = false /\
         Forall (fun x => isFull x = true) post) /\
      (exists e, o = Threw e game)
  | Refused why =>
      Forall (fun x => isFull x = true) games /\
      why = (match games with [] => NoGameYet | _ :: _ => AllGamesFull end)
  end.
Proof.
  unfold joinQueueEvent, queueGame.
  destruct (queue_fold games None)
    as [[Hall Hr] | (pre & g & post & E & Hg & Hp & Hr)];
    cbv zeta in Hr; rewrite Hr.
  - split; [exact Hall | reflexivity].
  - split; [now exists pre, post |].
    rewrite doAction_join. cbn [userId playerId isNullish].
    unfold joinAsPlayerAction. cbn [isValidPlayer negb].
    destruct (isJoinedAsPlayer g (num u)); eauto.
Qed.

(** X18: an action event of a connected client reaches the engine with the
    client's own user id, whatever id the payload carried, and so can never
    run an internal-only action nor one of the unlisted ones: the engine
    rejects the call and the client's game is unchanged. *)
Theorem remote_client_cannot_run_internal rnd ER userGames u a payload :
  In a (INTERNAL_ONLY_ACTIONS ++ UNLISTED_ACTIONS) ->
  actionEvent rnd ER userGames u a payload =
    (match userGame u userGames with
     | None => Refused NotInGame
     | Some game => Forwarded game (Threw InvalidActionClass game)
     end) /\
  (forall spoofed,
     actionEvent rnd ER userGames u a
       (mkPayload spoofed (playerId payload) (cardId payload)
          (otherPlayerId payload) (otherCardId payload))
     = actionEvent rnd ER userGames u a payload).
Proof.
  intros Ha. split; [| reflexivity].
  unfold actionEvent. destruct (userGame u userGames) as [game|];
    [| reflexivity].
  f_equal. rewrite doAction_unfold. unfold action_body.
  apply in_app_or in Ha. destruct Ha as [Ha | Ha].
  - now rewrite (validate_internal_only game a _ Ha).
  - now rewrite (validate_unlisted game a _ Ha).
Qed.

Lemma remote_client_cannot_run_internal_witness :
  actionEvent fixedRandom closedEndRound [(1%Z, started3)] 1
    Action.NEXT_TURN (mkPayload undefined undefined None undefined None)
  = Forwarded started3 (Threw InvalidActionClass started3).
Proof.
  apply (remote_client_cannot_run_internal fixedRandom closedEndRound
           [(1%Z, started3)] 1%Z Action.NEXT_TURN
           (mkPayload undefined undefined None undefined None)).
  simpl. auto 20.
Defined.

(** ** Seating, leader and turn in reachable states *)

Lemma sameSeating_refl g : sameSeating g g.
Proof. split; reflexivity. Qed.

Lemma sameSeating_trans g1 g2 g3 :
  sameSeating g1 g2 -> sameSeating g2 g3 -> sameSeating g1 g3.
Proof.
  intros [A1 A2 A3 A4 A5 A6] [B1 B2 B3 B4 B5 B6].
  split; congruence.
Qed.

Lemma dealHand_sameSeating (n i : nat) (g : Game) :
  sameSeating g (stateAfter (dealHand n i g)).
Proof.
  revert g. induction n as [|n IH]; intros g; simpl.
  - apply sameSeating_refl.
  - destruct (deck g) as [|c d]; simpl; [apply sameSeating_refl |].
    eapply sameSeating_trans; [| apply IH].
    split; fields; try reflexivity. apply updateAt_length.
Qed.

Lemma forEachSeat_sameSeating (seats : list nat) (n : nat) (g : Game) :
  sameSeating g (stateAfter (forEachSeat seats (dealHand n) g)).
Proof.
  revert g. induction seats as [|i seats IH]; intros g; simpl.
  - apply sameSeating_refl.
  - pose proof (dealHand_sameSeating n i g) as H1.
    destruct (dealHand n i g) as [g1 | e g1]; simpl in *; [| exact H1].
    eapply sameSeating_trans; [exact H1 | apply IH].
Qed.

Lemma startRoundAction_sameSeating self g :
  sameSeating g (stateAfter (startRoundAction self g)).
Proof.
  unfold startRoundAction, distributeCardsAction.
  pose proof (forEachSeat_sameSeating (seq 0 (List.length (players g)))
                DEFAULT_NUMBER_OF_CARDS_PER_HAND g) as H1.
  destruct (forEachSeat _ _ g) as [g1 | e g1]; cbn [andThen stateAfter] in *;
    [| exact H1].
  unfold showTwoHandCardsAction. rewrite setState_plain by discriminate.
  cbn [stateAfter]. eapply sameSeating_trans; [exact H1 |].
  split; reflexivity.
Qed.

Lemma seatingOk_sameSeating n g g' :
  seatingOk n g ->
  sameSeating g g' ->
  (isGameStarted g = false -> state g' = BeginOfGame) ->
  seatingOk n g'.
Proof.
  intros [O1 O2 O3 O4 O5 O6 O7 O8 O9] [S1 S2 S3 S4 S5 S6] Hb. split.
  - exact O1.
  - congruence.
  - congruence.
  - now rewrite S1.
  - rewrite S1, S3. exact O5.
  - now rewrite S1.
  - unfold firstJoiner in *. now rewrite S1, S2.
  - rewrite S5, S6. intros H. split; [now apply Hb | now apply O8].
  - rewrite S5, S6, S3. exact O9.
Qed.

Lemma seatingOk_started n g :
  seatingOk n g -> state g <> BeginOfGame -> isGameStarted g = true.
Proof.
  intros O Hs. destruct (isGameStarted g) eqn:E; [reflexivity |].
  now destruct (so_not_started _ _ O E).
Qed.

Lemma joinStep_same g g' : sameSeating g g' -> joinStep g g'.
Proof. intros S. left. split; [apply S | apply S]. Qed.

Lemma exchangeHandWithOther_cases self g u id other otherId :
  exchangeHandWithOther self g u id other otherId = Done (with_state g Burn)
  \/ exists e, exchangeHandWithOther self g u id other otherId = Threw e g.
Proof.
  unfold exchangeHandWithOther.
  destruct (isValidPlayer g other); [| right; eauto].
  destruct (sameSeat (userSeat g u) (seatAt g other)); [right; eauto |].
  destruct (userSeat g u) as [[i p]|]; [| right; eauto].
  destruct (seatAt g other) as [[j q]|]; [| right; eauto].
  now left.
Qed.

Section SeatingPreservation.

Variable cards : list Card.
Variable n : Z.
Variable self : Game -> Action.t -> option UserActionPayload -> Outcome.
Variable rnd : Random.
Variable ER : Game -> Action.t -> option UserActionPayload -> Outcome.

Hypothesis rnd_fair : fairRandom rnd.
Hypothesis self_keeps :
  forall g a payload,
    invariant cards g -> seatingOk n g ->
    seatingOk n (stateAfter (self g a payload)) /\
    joinStep g (stateAfter (self g a payload)).

(** A method that leaves the seating alone, run in a phase after
    [BeginOfGame]. *)
Lemma keeps_by_frame g (o : Outcome) :
  seatingOk n g ->
  state g <> BeginOfGame ->
  sameSeating g (stateAfter o) ->
  seatingOk n (stateAfter o) /\ joinStep g (stateAfter o).
Proof.
  intros O Hs S. split; [| now apply joinStep_same].
  apply (seatingOk_sameSeating n g); [exact O | exact S |].
  intros H. rewrite (seatingOk_started n g O Hs) in H. discriminate H.
Qed.

Lemma keeps_unchanged g :
  seatingOk n g -> seatingOk n g /\ joinStep g g.
Proof.
  intros O. split; [exact O | apply joinStep_same, sameSeating_refl].
Qed.

Lemma startGameAction_keeps g :
  state g = BeginOfGame ->
  invariant cards g -> seatingOk n g ->
  seatingOk n (stateAfter (startGameAction self rnd g)) /\
  joinStep g (stateAfter (startGameAction self rnd g)).
Proof.
  intros Hs I O. unfold startGameAction.
  destruct (isGameStarted g) eqn:Eg; [now apply keeps_unchanged |].
  cbn [setState].
  set (g3 := with_state
               (selectFirstTurnAction rnd
                  (with_deck (with_isGameStarted g true)
                     (shuffle rnd (deck (with_isGameStarted g true)))))
               RoundStart).
  assert (I3 : invariant cards g3).
  { destruct I as [I1 I2 I3 I4]. split; unfold g3; fields.
    - rewrite <- I1. unfold heldIds, containerIds, pickedIds,
        selectFirstTurnAction. fields.
      apply Permutation_app; [| reflexivity].
      apply Permutation_app; [| reflexivity].
      apply Permutation_map. apply rnd_fair.
    - exact I2.
    - intros _. apply I3. now left.
    - discriminate. }
  assert (O3 : seatingOk n g3).
  { destruct O as [O1 O2 O3 O4 O5 O6 O7 O8 O9].
    split; unfold g3, selectFirstTurnAction, firstJoiner in *; fields;
      try assumption.
    - discriminate.
    - intros _. eexists. split; [reflexivity |].
      apply rnd_fair. rewrite O3. lia. }
  destruct (self_keeps g3 Action.START_ROUND None I3 O3) as [K1 K2].
  split; [exact K1 |].
  unfold joinStep in *. unfold g3 in K2 at 1 2 3 4 5.
  unfold selectFirstTurnAction in K2. fields. exact K2.
Qed.

Lemma state_action_keeps g a payload :
  invariant cards g -> seatingOk n g ->
  seatingOk n (stateAfter (state_action self rnd ER g a payload)) /\
  joinStep g (stateAfter (state_action self rnd ER g a payload)).
Proof.
  intros I O. unfold state_action.
  destruct (state g) eqn:Hs.
  - destruct a; try (now apply keeps_unchanged).
    now apply startGameAction_keeps.
  - destruct a; try (now apply keeps_unchanged).
    apply keeps_by_frame; [exact O | congruence |].
    apply startRoundAction_sameSeating.
  - destruct a; try (now apply keeps_unchanged);
      (apply keeps_by_frame; [exact O | congruence |]).
    + cbn [PickBurn_action]. rewrite pickCardFromPileAction_eq.
      destruct (pileOfCards g); split; reflexivity.
    + cbn [PickBurn_action]. rewrite pickCardFromBurnedAction_eq.
      destruct (burnedCards g); split; reflexivity.
  - destruct a; try (now apply keeps_unchanged).
    apply keeps_by_frame; [exact O | congruence |].
    unfold PilePicked_action, useAbilityAction.
    destruct (pickedCard g) as [c|]; [| apply sameSeating_refl].
    destruct (getAbility c); split; reflexivity.
  - destruct a; try (now apply keeps_unchanged).
    apply keeps_by_frame; [exact O | congruence |].
    unfold BurnedPicked_action, PilePicked_action, useAbilityAction.
    destruct (pickedCard g) as [c|]; [| apply sameSeating_refl].
    destruct (getAbility c); split; reflexivity.
  - destruct a, payload as [q|]; try (now apply keeps_unchanged).
    apply keeps_by_frame; [exact O | congruence |].
    cbn [ExchangeHandWithOther_action].
    destruct (exchangeHandWithOther_cases self g (userId q) (cardId q)
                (otherPlayerId q) (otherCardId q)) as [-> | [e ->]];
      split; reflexivity.
  - destruct a, payload as [q|]; try (now apply keeps_unchanged).
    apply keeps_by_frame; [exact O | congruence |].
    unfold ShowOneHandCard_action, showOneHandCardAction.
    destruct (userSeat g (userId q)) as [[i p]|]; split; reflexivity.
  - destruct a, payload as [q|]; try (now apply keeps_unchanged).
    apply keeps_by_frame; [exact O | congruence |].
    unfold ShowOneOtherHandCard_action, showOneOtherHandCardAction.
    destruct (isValidPlayer g (otherPlayerId q)); [| split; reflexivity].
    destruct (seatAt g (otherPlayerId q)) as [[j r]|]; split; reflexivity.
  - destruct a; now apply keeps_unchanged.
  - now elim (inv_phase _ _ I).
  - now apply keeps_unchanged.
Qed.

End SeatingPreservation.

Lemma joinAsPlayerAction_keeps n g z0 pid :
  seatingOk n g ->
  seatingOk n (stateAfter (joinAsPlayerAction g (num z0) pid)) /\
  joinStep g (stateAfter (joinAsPlayerAction g (num z0) pid)).
Proof.
  intros O.
  destruct (joinAsPlayerAction g (num z0) pid) as [g' | e g'] eqn:E.
  2:{ assert (g' = g).
      { revert E. unfold joinAsPlayerAction.
        destruct (isJoinedAsPlayer g (num z0)); [intros H; now inversion H |].
        destruct (negb (isValidPlayer g pid)); [intros H; now inversion H |].
        destruct (isFull g); [intros H; now inversion H | discriminate]. }
      subst. cbn [stateAfter].
      split; [exact O | apply joinStep_same, sameSeating_refl]. }
  destruct (joinAsPlayerAction_done _ _ _ _ E) as (Ej & _ & Ef & ->).
  cbn [stateAfter].
  unfold isFull, numberOfPlayers in Ef. apply Z.eqb_neq in Ef.
  destruct O as [O1 O2 O3 O4 O5 O6 O7 O8 O9].
  split.
  - split; fields; try assumption.
    + rewrite length_app. cbn [List.length]. lia.
    + apply Forall_app. split; [exact O5 |].
      constructor; [| constructor]. cbn [fst snd].
      split; [now exists z0 |].
      destruct (seatRef g pid) as [i|] eqn:Er; [| exact I].
      now apply (seatRef_lt g pid).
    + rewrite map_app. cbn [map fst].
      apply (Permutation_NoDup (Permutation_cons_append _ _)).
      constructor; [| exact O6]. now apply mapGet_None.
    + unfold firstJoiner in *. fields.
      destruct (userPlayer g) as [|[k v] m]; [reflexivity | exact O7].
  - right. exists (num z0), (seatRef g pid). fields.
    repeat split; try reflexivity. exact Ej.
Qed.

Lemma action_body_keeps cards n self rnd ER :
  fairRandom rnd ->
  (forall g a payload,
     invariant cards g -> seatingOk n g ->
     seatingOk n (stateAfter (self g a payload)) /\
     joinStep g (stateAfter (self g a payload))) ->
  forall g a payload,
    invariant cards g -> seatingOk n g ->
    seatingOk n (stateAfter (action_body self rnd ER g a payload)) /\
    joinStep g (stateAfter (action_body self rnd ER g a payload)).
Proof.
  intros Hf Hself g a payload I O.
  assert (U : seatingOk n g /\ joinStep g g).
  { split; [exact O | apply joinStep_same, sameSeating_refl]. }
  unfold action_body.
  destruct (validateUsingActionBased g a (payloadUserId payload))
    as [[|]|] eqn:V; try exact U.
  destruct a; try (now apply (state_action_keeps cards n self rnd ER)).
  destruct payload as [q|]; [| exact U].
  unfold validateUsingActionBased in V. cbn in V.
  destruct (userId q) as [| | z0]; try discriminate V.
  now apply joinAsPlayerAction_keeps.
Qed.

Lemma action_keeps cards n rnd ER (depth : nat) :
  fairRandom rnd ->
  forall g a payload,
    invariant cards g -> seatingOk n g ->
    seatingOk n (stateAfter (action rnd ER depth g a payload)) /\
    joinStep g (stateAfter (action rnd ER depth g a payload)).
Proof.
  intros Hf. induction depth as [|d IH]; intros g a payload I O.
  - split; [exact O | apply joinStep_same, sameSeating_refl].
  - cbn [action]. now apply (action_body_keeps cards n).
Qed.

Lemma newGame_seatingOk cards n g :
  newGame cards n BeginOfGame = Some g -> seatingOk n g.
Proof.
  unfold newGame, isValidMaxNumberOfPlayers, MIN_NUMBER_OF_PLAYERS,
    MAX_NUMBER_OF_PLAYERS.
  destruct (Z.leb_spec 3 n) as [H3 | H3];
    destruct (Z.leb_spec n 8) as [H8 | H8]; cbn [andb]; try discriminate.
  intros H. inversion H; subst; clear H.
  split; fields; try reflexivity.
  - lia.
  - apply repeat_length.
  - cbn [List.length]. lia.
  - constructor.
  - constructor.
  - intros _. now split.
  - discriminate.
Qed.

Lemma reachable_seatingOk cards n g :
  reachable cards n g -> seatingOk n g.
Proof.
  induction 1 as [g H | g rnd ER a payload Hr IH Hf].
  - now apply (newGame_seatingOk cards).
  - apply (action_keeps cards n rnd ER 2 Hf g a payload);
      [now apply (reachable_invariant cards n) | exact IH].
Qed.

Lemma nullJoined_reachable : reachable standardCards 3 nullJoined.
Proof.
  unfold nullJoined, play.
  apply reach_call; [| exact fixedRandom_fair].
  apply reach_new. vm_compute. reflexivity.
Qed.

(** X19: in every reachable state of a game created with [n] seats the
    seat array still has [n] seats, at most [n] users are bound, every bound
    user is a number and no user is bound twice.  A bound user is bound
    either to an existing seat, whose seat object is then found, or to
    [undefined] (after a join with the seat index [null]), and then has no
    seat object. *)
Theorem seats_and_bindings_stay_valid cards n g :
  reachable cards n g ->
  List.length (players g) = Z.to_nat n /\
  maxNumberOfPlayers g = n /\
  numberOfPlayers g <= Z.to_nat n /\
  NoDup (map fst (userPlayer g)) /\
  (forall u r, mapGet u (userPlayer g) = Some r ->
     (exists z, u = num z) /\
     match r with
     | Some i => exists p, userSeat g u = Some (i, p)
     | None => userSeat g u = None
     end).
Proof.
  intros H. destruct (reachable_seatingOk cards n g H)
    as [O1 O2 O3 O4 O5 O6 O7 O8 O9].
  repeat split; try assumption.
  - revert O5 H0. clear. induction (userPlayer g) as [|[k v] m IH];
      simpl; [discriminate |].
    intros F. inversion F as [|x l [Hk Hv] Fl]; subst.
    destruct (strictEq k u) eqn:E.
    + apply strictEq_eq in E. subst. intros _. exact Hk.
    + now apply IH.
  - unfold userSeat. rewrite H0. destruct r as [i|]; [| reflexivity].
    assert (Hi : i < List.length (players g)).
    { revert O5 H0. clear. induction (userPlayer g) as [|[k v] m IH];
        simpl; [discriminate |].
      intros F. inversion F as [|x l [Hk Hv] Fl]; subst.
      destruct (strictEq k u).
      - intros E. inversion E; subst. exact Hv.
      - now apply IH. }
    destruct (nth_error (players g) i) as [p|] eqn:E; [now exists p |].
    apply nth_error_None in E. lia.
Qed.

Lemma seats_and_bindings_stay_valid_witness :
  (List.length (players picked3) = Z.to_nat 3 /\
   numberOfPlayers picked3 <= Z.to_nat 3 /\
   exists p, userSeat picked3 (num 2) = Some (1, p)) /\
  (mapGet (num 1) (userPlayer nullJoined) = Some None /\
   userSeat nullJoined (num 1) = None).
Proof.
  split.
  - destruct (seats_and_bindings_stay_valid standardCards 3 picked3
                picked3_reachable) as (A & _ & B & _ & C).
    split; [exact A |]. split; [exact B |].
    apply (C (num 2) (Some 1)). vm_compute. reflexivity.
  - destruct (seats_and_bindings_stay_valid standardCards 3 nullJoined
                nullJoined_reachable) as (_ & _ & _ & _ & C).
    split; [vm_compute; reflexivity |].
    apply (C (num 1) None). vm_compute. reflexivity.
Defined.

(** X20: in every reachable state the leader is the user of the oldest
    binding ([null] while nobody has joined), and once a leader is set no
    call of [doAction], accepted or not, changes it. *)
Theorem leader_is_first_joiner_forever cards n g rnd ER a payload :
  reachable cards n g ->
  fairRandom rnd ->
  leader g = firstJoiner g /\
  (userPlayer g = [] <-> leader g = null) /\
  (leader g <> null ->
   leader (stateAfter (doAction rnd ER g a payload)) = leader g).
Proof.
  intros H Hf. pose proof (reachable_seatingOk cards n g H) as O.
  pose proof (reachable_invariant cards n g H) as I.
  pose proof (so_leader _ _ O) as L.
  assert (E : userPlayer g = [] <-> leader g = null).
  { rewrite L. unfold firstJoiner.
    pose proof (so_users _ _ O) as F.
    destruct (userPlayer g) as [|[k v] m]; [tauto |].
    inversion F as [|x l [[z Hk] _] _]; subst. cbn [fst] in Hk. subst.
    split; discriminate. }
  split; [exact L |]. split; [exact E |].
  intros Hn.
  destruct (action_keeps cards n rnd ER 2 Hf g a payload I O) as [_ J].
  destruct J as [[_ J] | (u & i & _ & _ & J)]; [exact J |].
  destruct (userPlayer g); [| exact J].
  elim Hn. now apply E.
Qed.

Lemma leader_is_first_joiner_forever_witness :
  leader picked3 = firstJoiner picked3.
Proof.
  destruct (leader_is_first_joiner_forever standardCards 3 picked3
              fixedRandom closedEndRound Action.RESTART (asUser 2)
              picked3_reachable fixedRandom_fair) as [L _].
  exact L.
Defined.

(** X21: in every reachable state the game is either not started, still
    in [BeginOfGame] with the turn unset, or started with a turn index
    inside the seat array, so that the turn check of the validator answers
    for every user instead of throwing. *)
Theorem turn_is_set_exactly_when_started cards n g :
  reachable cards n g ->
  (isGameStarted g = false /\ state g = BeginOfGame /\ turn g = None) \/
  (isGameStarted g = true /\
   (exists t, turn g = Some t /\ t < List.length (players g)) /\
   forall u, exists b, isUserTurn g u = Some b).
Proof.
  intros H. pose proof (reachable_seatingOk cards n g H) as O.
  destruct (isGameStarted g) eqn:E.
  - right. destruct (so_started _ _ O E) as (t & Ht & Hl).
    split; [reflexivity |]. split; [now exists t |].
    intros u. unfold isUserTurn. rewrite Ht.
    destruct (nth_error (players g) t) as [p|] eqn:En; [eauto |].
    apply nth_error_None in En. lia.
  - left. destruct (so_not_started _ _ O E). now repeat split.
Qed.

Lemma turn_is_set_exactly_when_started_witness :
  (isGameStarted picked3 = false /\ state picked3 = BeginOfGame /\
   turn picked3 = None) \/
  (isGameStarted picked3 = true /\
   (exists t, turn picked3 = Some t /\ t < List.length (players picked3)) /\
   forall u, exists b, isUserTurn picked3 u = Some b).
Proof.
  exact (turn_is_set_exactly_when_started standardCards 3 picked3
           picked3_reachable).
Defined.

(** X22: [START_GAME] is also in the internal list, but the leader check
    comes first and the leader is never [undefined]: in every reachable
    state a [START_GAME] that carries no user id is rejected and changes
    nothing. *)
Theorem start_game_needs_a_user cards n g rnd ER :
  reachable cards n g ->
  isIn Action.START_GAME INTERNAL_BASED_ACTION = true /\
  doAction rnd ER g Action.START_GAME None = Threw InvalidActionClass g.
Proof.
  intros H. split; [reflexivity |].
  pose proof (reachable_seatingOk cards n g H) as O.
  rewrite doAction_unfold. unfold action_body, validateUsingActionBased.
  cbn. unfold isLeaderUser. rewrite (so_leader _ _ O). unfold firstJoiner.
  pose proof (so_users _ _ O) as F.
  destruct (userPlayer g) as [|[k v] m]; [reflexivity |].
  inversion F as [|x l [[z Hk] _] _]; subst. cbn [fst] in Hk. now subst.
Qed.

Lemma start_game_needs_a_user_witness :
  play (fresh standardCards 3) Action.START_GAME None
    = Threw InvalidActionClass (fresh standardCards 3).
Proof.
  apply (start_game_needs_a_user standardCards 3 (fresh standardCards 3)
           fixedRandom closedEndRound).
  apply reach_new. vm_compute. reflexivity.
Defined.
